(** * Transcribe_VM: the Flask front end of [main.py]

    A shallow embedding of the three request handlers of [main.py]
    ([transcribe], [list_transcriptions], [download_file]) together with
    the helpers they call, followed by the properties the specification
    states about them.

    Modelling conventions.
    - A Python [str] is a list of Unicode code points ([N]); byte strings
      are lists of [Byte.byte].
    - The Unicode database used by [unicodedata.normalize] and [str.lower]
      is a parameter ([Unicode]); everything else is computed.
    - The object store and the compute API are external: the bucket is an
      explicit state, every request against the bucket or the instance is
      logged in a trace of [Call]s, and the environment decides which
      requests raise.  Building the client objects themselves
      ([storage.Client()], [discovery.build]) touches neither the bucket
      nor the instance and is not part of the model.
    - POSIX is assumed for [os.sep] and [os.path]. *)

From Stdlib Require Import List NArith Bool Lia String Ascii.
From Stdlib Require Import Sorted Permutation.
Import ListNotations.

Local Open Scope N_scope.
Local Open Scope list_scope.

(** ** Python strings *)

Definition char := N.
Definition str := list char.

(** A string literal of the source, as code points. *)
Definition lit (s : string) : str :=
  map N_of_ascii (list_ascii_of_string s).

Fixpoint str_eqb (a b : str) : bool :=
  match a, b with
  | [], [] => true
  | x :: a', y :: b' => (x =? y) && str_eqb a' b'
  | _, _ => false
  end.

(** [c in s] for a one-character [c]. *)
Definition contains (c : char) (s : str) : bool :=
  existsb (N.eqb c) s.

(** [s.startswith(p)] *)
Fixpoint startswith (p s : str) : bool :=
  match p, s with
  | [], _ => true
  | x :: p', y :: s' => (x =? y) && startswith p' s'
  | _ :: _, [] => false
  end.

(** [s.endswith(p)] *)
Definition endswith (p s : str) : bool :=
  startswith (rev p) (rev s).

(** Python compares strings lexicographically by code point. *)
Fixpoint str_compare (a b : str) : comparison :=
  match a, b with
  | [], [] => Eq
  | [], _ :: _ => Lt
  | _ :: _, [] => Gt
  | x :: a', y :: b' =>
      match x ?= y with
      | Eq => str_compare a' b'
      | o => o
      end
  end.

Definition str_ltb (a b : str) : bool :=
  match str_compare a b with Lt => true | _ => false end.

Definition str_leb (a b : str) : bool :=
  match str_compare a b with Gt => false | _ => true end.

(** Character classes of the two regular expressions and of [str.split]. *)
Definition is_digit (c : char) : bool := (48 <=? c) && (c <=? 57).
Definition is_upper (c : char) : bool := (65 <=? c) && (c <=? 90).
Definition is_lower (c : char) : bool := (97 <=? c) && (c <=? 122).
Definition is_alnum (c : char) : bool := is_digit c || is_upper c || is_lower c.

Definition ch_underscore : char := 95.
Definition ch_dot : char := 46.
Definition ch_hyphen : char := 45.
Definition ch_slash : char := 47.
Definition ch_backslash : char := 92.
Definition ch_space : char := 32.

(** The class [[a-zA-Z0-9_.-]] *)
Definition is_safe (c : char) : bool :=
  is_alnum c || (c =? ch_underscore) || (c =? ch_dot) || (c =? ch_hyphen).

(** [str.isspace] on one code point: what [str.split()] splits on. *)
Definition is_space (c : char) : bool :=
  ((9 <=? c) && (c <=? 13)) || ((28 <=? c) && (c <=? 32))
  || (c =? 133) || (c =? 160) || (c =? 5760)
  || ((8192 <=? c) && (c <=? 8202))
  || (c =? 8232) || (c =? 8233) || (c =? 8239) || (c =? 8287) || (c =? 12288).

(** [s.split()]: the maximal runs of non-whitespace, in order. *)
Fixpoint split_ws_from (cur : str) (s : str) : list str :=
  match s with
  | [] => match cur with [] => [] | _ => [rev cur] end
  | c :: t =>
      if is_space c
      then match cur with
           | [] => split_ws_from [] t
           | _ => rev cur :: split_ws_from [] t
           end
      else split_ws_from (c :: cur) t
  end.

Definition split_ws (s : str) : list str := split_ws_from [] s.

(** [sep.join(parts)] *)
Fixpoint join (sep : str) (parts : list str) : str :=
  match parts with
  | [] => []
  | [p] => p
  | p :: rest => p ++ sep ++ join sep rest
  end.

(** [s.replace(a, b)] for one-character [a] and [b]. *)
Definition replace_char (a b : char) (s : str) : str :=
  map (fun c => if c =? a then b else c) s.

Fixpoint dropwhile (p : char -> bool) (s : str) : str :=
  match s with
  | [] => []
  | c :: t => if p c then dropwhile p t else s
  end.

(** [s.strip(chars)] *)
Definition strip (chars : str) (s : str) : str :=
  let inset c := contains c chars in
  rev (dropwhile inset (rev (dropwhile inset s))).

(** [s.rsplit(sep, 1)] for a one-character [sep]: [None] when [sep] does
    not occur, otherwise the parts before and after its last occurrence. *)
Fixpoint rsplit_last (sep : char) (s : str) : option (str * str) :=
  match s with
  | [] => None
  | c :: t =>
      match rsplit_last sep t with
      | Some (a, b) => Some (c :: a, b)
      | None => if c =? sep then Some ([], t) else None
      end
  end.

Definition rsplit1 (sep : char) (s : str) : list str :=
  match rsplit_last sep s with
  | Some (a, b) => [a; b]
  | None => [s]
  end.

(** [s[:n]] for [n >= 0] *)
Definition slice_to (n : nat) (s : str) : str := firstn n s.

(** [s[:-1]] *)
Definition drop_last (s : str) : str := removelast s.

(** The Unicode database, as far as the program consults it. *)
Record Unicode := {
  normalize_NFKD : str -> str;   (* unicodedata.normalize("NFKD", s) *)
  str_lower : str -> str         (* s.lower() *)
}.

(** On ASCII text NFKD is the identity and [lower] maps [A-Z] to [a-z]. *)
Definition ascii_unicode : Unicode := {|
  normalize_NFKD := fun s => s;
  str_lower := map (fun c => if is_upper c then c + 32 else c)
|}.

(** ** werkzeug.utils.secure_filename *)

Section Filenames.
Context (U : Unicode).

(** [filename.encode("ascii", "ignore").decode("ascii")] *)
Definition ascii_ignore (s : str) : str := filter (fun c => c <? 128) s.

(** [_filename_ascii_strip_re.sub("", s)] with the pattern
    [[^A-Za-z0-9_.-]] *)
Definition filename_ascii_strip (s : str) : str := filter is_safe s.

Definition secure_filename (filename : str) : str :=
  let filename := normalize_NFKD U filename in
  let filename := ascii_ignore filename in
  let filename := replace_char ch_slash ch_space filename in
  strip (lit "._")
        (filename_ascii_strip (join (lit "_") (split_ws filename))).

(** ** allowed_file *)

Definition ALLOWED_EXTENSIONS : list str :=
  map lit ["mp4"; "mp3"; "wav"; "flac"; "aac"; "ogg"; "webm"; "m4a"]%string.

Definition allowed_file (filename : str) : bool :=
  contains ch_dot filename &&
  match nth_error (rsplit1 ch_dot filename) 1 with
  | Some ext => existsb (str_eqb (str_lower U ext)) ALLOWED_EXTENSIONS
  | None => false
  end.

End Filenames.

(** ** Deriving the job identifier *)

(** [re.sub(r'https?://', '', url)]: scanning from the left, every match
    of [http://] or [https://] is deleted and scanning resumes after it.
    [skip] counts the characters of the current match still to delete. *)
Definition scheme_match (s : str) : option nat :=
  if startswith (lit "http://") s then Some 7%nat
  else if startswith (lit "https://") s then Some 8%nat
  else None.

Fixpoint re_sub_scheme_from (skip : nat) (s : str) : str :=
  match s with
  | [] => []
  | c :: t =>
      match skip with
      | S k => re_sub_scheme_from k t
      | O =>
          match scheme_match s with
          | Some n => re_sub_scheme_from (pred n) t
          | None => c :: re_sub_scheme_from 0 t
          end
      end
  end.

Definition re_sub_scheme (url : str) : str := re_sub_scheme_from 0 url.

(** [re.sub(r'[^a-zA-Z0-9_.-]', '_', s)] *)
Definition re_sub_unsafe (s : str) : str :=
  map (fun c => if is_safe c then c else ch_underscore) s.

(** [datetime.now()]; [strftime] is modelled for four-digit years. *)
Record DateTime := {
  year : N; month : N; day : N; hour : N; minute : N; second : N
}.

Definition valid_datetime (d : DateTime) : Prop :=
  1000 <= year d <= 9999 /\ 1 <= month d <= 12 /\ 1 <= day d <= 31 /\
  hour d < 24 /\ minute d < 60 /\ second d < 60.

Definition digit (n : N) : char := 48 + n mod 10.

Definition pad2 (n : N) : str := [digit (n / 10); digit n].
Definition pad4 (n : N) : str :=
  [digit (n / 1000); digit (n / 100); digit (n / 10); digit n].

(** [d.strftime("%Y%m%d-%H%M%S")] *)
Definition strftime (d : DateTime) : str :=
  pad4 (year d) ++ pad2 (month d) ++ pad2 (day d) ++ [ch_hyphen] ++
  pad2 (hour d) ++ pad2 (minute d) ++ pad2 (second d).

(** ** Requests and responses *)

(** werkzeug's [FileStorage]: the part's file name, its [Content-Type]
    header if any, and the bytes of its stream. *)
Record FileStorage := {
  filename : str;
  content_type : option str;
  stream : list Byte.byte
}.

(** [request.form.get('url')] and [request.files.get('file')] *)
Record Request := {
  form_url : option str;
  files_file : option FileStorage
}.

(** Truth value of an optional string: [None] and [""] are false. *)
Definition nonempty (s : option str) : option str :=
  match s with
  | Some (c :: t) => Some (c :: t)
  | _ => None
  end.

(** [url] where the source tests [if url]. *)
Definition given_url (url : option str) : option str := nonempty url.

(** Truth value of [file]: [FileStorage.__bool__] is [bool(self.filename)],
    so a part without a file name counts as no file. *)
Definition given_file (file : option FileStorage) : option FileStorage :=
  match file with
  | Some f => match filename f with [] => None | _ => Some f end
  | None => None
  end.

Inductive Body :=
| Text (s : str)
| Bytes (b : list Byte.byte)
| JsonList (entries : list (str * str))    (* [{name, download_url}, ...] *)
| JsonError (s : str).                     (* {"error": s} *)

(** A header with its options, e.g.
    [Content-Disposition: attachment; filename=...] *)
Record Header := {
  header_name : str;
  header_value : str;
  header_options : list (str * str)
}.

Record Response := {
  status : N;
  body : Body;
  mimetype : str;
  headers : list Header
}.

(** A view function returning [(text, code)]. *)
Definition text_response (s : str) (code : N) : Response :=
  {| status := code; body := Text s; mimetype := lit "text/html"; headers := [] |}.

(** [jsonify(x)] and [(jsonify(x), code)] *)
Definition json_response (b : Body) (code : N) : Response :=
  {| status := code; body := b; mimetype := lit "application/json"; headers := [] |}.

(** ** The external services *)

Definition GCE_ZONE : str := lit "us-east1-b".
Definition GCE_INSTANCE_NAME : str := lit "transcribe-worker-vm".
Definition GCS_BUCKET_NAME : str := lit "shaw-transcripts-20260207".

(** A stored object. *)
Record Blob := {
  blob_data : list Byte.byte;
  blob_content_type : option str
}.

(** The bucket [GCS_BUCKET_NAME]: its objects by name, in listing order. *)
Definition Bucket := list (str * Blob).

(** Exceptions (instances of [Exception]) and their [str()]. *)
Inductive Exn :=
| KeyError (key : str)
| NotFound (path : str)
| ApiError (text : str).

Definition exn_str (e : Exn) : str :=
  match e with
  | KeyError k => lit "'" ++ k ++ lit "'"
  | NotFound p => lit "No such object: " ++ GCS_BUCKET_NAME ++ lit "/" ++ p
  | ApiError t => t
  end.

(** Requests sent to the object store and to the compute API. *)
Inductive Call :=
| CallUpload (path : str) (data : list Byte.byte) (ctype : option str)
| CallListPrefixes                 (* list_blobs(bucket, delimiter='/') *)
| CallListBlobs (prefix : str)     (* list_blobs(bucket, prefix=prefix) *)
| CallExists (path : str)
| CallDownload (path : str)
| CallInstancesGet (project : option str) (zone instance : str)
| CallSetMetadata (project : option str) (zone instance : str)
    (fingerprint : str) (items : list (str * option str))
| CallStart (project : option str) (zone instance : str).

(** The answer of [instances().get()], as far as it is read. *)
Record Metadata := { fingerprint : option str }.
Record InstanceInfo := { metadata : option Metadata }.

(** What a handler runs in: configuration, clock, and the behaviour of
    the services and of [url_for] outside the program's control. *)
Record Env := {
  GCP_PROJECT_ID : option str;
  HUGGING_FACE_TOKEN : option str;
  now : DateTime;
  raises : Call -> option Exn;
  instance_info : InstanceInfo;
  url_for_download_file : str -> str
}.

(** ** Handlers as computations over the bucket

    A computation reads the bucket and yields a value or an exception,
    the bucket afterwards, and the requests it sent, in order. *)
Inductive Outcome (A : Type) :=
| Return (a : A)
| Raise (e : Exn).
Arguments Return {A} a.
Arguments Raise {A} e.

Definition M (A : Type) : Type := Bucket -> Outcome A * Bucket * list Call.

Definition ret {A} (a : A) : M A := fun b => (Return a, b, []).

Definition raise {A} (e : Exn) : M A := fun b => (Raise e, b, []).

Definition bind {A B} (m : M A) (k : A -> M B) : M B :=
  fun b =>
    match m b with
    | (Return a, b1, t1) =>
        match k a b1 with
        | (o, b2, t2) => (o, b2, t1 ++ t2)
        end
    | (Raise e, b1, t1) => (Raise e, b1, t1)
    end.

(** [try: m  except Exception as e: h e] *)
Definition try_except {A} (m : M A) (h : Exn -> M A) : M A :=
  fun b =>
    match m b with
    | (Return a, b1, t1) => (Return a, b1, t1)
    | (Raise e, b1, t1) =>
        match h e b1 with
        | (o, b2, t2) => (o, b2, t1 ++ t2)
        end
    end.

Declare Scope handler_scope.
Delimit Scope handler_scope with handler.
Notation "x <- m ;; k" := (bind m (fun x => k))
  (at level 61, m at next level, right associativity) : handler_scope.
Notation "m ;; k" := (bind m (fun _ => k))
  (at level 61, right associativity) : handler_scope.
Local Open Scope handler_scope.

(** ** The object store gateway *)

(** Storing an object replaces the one of that name, or adds it at its
    place in the listing order. *)
Fixpoint bucket_put (path : str) (o : Blob) (b : Bucket) : Bucket :=
  match b with
  | [] => [(path, o)]
  | (n, x) :: rest =>
      match str_compare path n with
      | Eq => (path, o) :: rest
      | Lt => (path, o) :: b
      | Gt => (n, x) :: bucket_put path o rest
      end
  end.

Fixpoint bucket_get (path : str) (b : Bucket) : option Blob :=
  match b with
  | [] => None
  | (n, x) :: rest => if str_eqb n path then Some x else bucket_get path rest
  end.

(** The part of an object name up to and including its first ['/']. *)
Fixpoint first_level_prefix (name : str) : option str :=
  match name with
  | [] => None
  | c :: t =>
      if c =? ch_slash then Some [c]
      else option_map (cons c) (first_level_prefix t)
  end.

Fixpoint mem_str (s : str) (l : list str) : bool :=
  match l with
  | [] => false
  | x :: t => str_eqb x s || mem_str s t
  end.

(** The prefixes a listing with delimiter ['/'] reports: each first-level
    prefix once, in listing order. *)
Fixpoint bucket_prefixes_from (seen : list str) (b : Bucket) : list str :=
  match b with
  | [] => []
  | (n, _) :: rest =>
      match first_level_prefix n with
      | Some p =>
          if mem_str p seen then bucket_prefixes_from seen rest
          else p :: bucket_prefixes_from (p :: seen) rest
      | None => bucket_prefixes_from seen rest
      end
  end.

Definition bucket_prefixes (b : Bucket) : list str := bucket_prefixes_from [] b.

(** The objects a listing with [prefix] reports, in listing order. *)
Definition bucket_under (prefix : str) (b : Bucket) : Bucket :=
  filter (fun o => startswith prefix (fst o)) b.

(** [os.path.basename] *)
Definition basename (path : str) : str :=
  match rsplit_last ch_slash path with
  | Some (_, b) => b
  | None => path
  end.

(** A local [Blob] object as [bucket.blob(path)] creates it: a name and
    the properties loaded so far. *)
Record BlobHandle := {
  handle_name : str;
  handle_content_type : option str
}.

Definition bucket_blob (path : str) : BlobHandle :=
  {| handle_name := path; handle_content_type := None |}.

Section Services.
Context (env : Env).

(** One request to a service: logged, then either the exception the
    environment raises for it or its effect and answer. *)
Definition request {A} (c : Call) (effect : Bucket -> Bucket)
    (answer : Bucket -> Outcome A) : M A :=
  fun b =>
    match raises env c with
    | Some e => (Raise e, b, [c])
    | None => (answer b, effect b, [c])
    end.

(** [blob.upload_from_file(stream, content_type=ctype)]; without a
    content type the library stores [application/octet-stream]. *)
Definition upload_from_file (path : str) (data : list Byte.byte)
    (ctype : option str) : M unit :=
  let stored := match ctype with
                | Some t => t
                | None => lit "application/octet-stream"
                end in
  request (CallUpload path data ctype)
    (bucket_put path {| blob_data := data; blob_content_type := Some stored |})
    (fun _ => Return tt).

(** [storage_client.list_blobs(bucket.name, delimiter='/')], all pages. *)
Definition list_prefixes : M (list str) :=
  request CallListPrefixes (fun b => b) (fun b => Return (bucket_prefixes b)).

(** [storage_client.list_blobs(bucket.name, prefix=prefix)] *)
Definition list_blobs (prefix : str) : M Bucket :=
  request (CallListBlobs prefix) (fun b => b)
    (fun b => Return (bucket_under prefix b)).

(** [blob.exists()] *)
Definition blob_exists (h : BlobHandle) : M bool :=
  request (CallExists (handle_name h)) (fun b => b)
    (fun b => Return (match bucket_get (handle_name h) b with
                      | Some _ => true
                      | None => false
                      end)).

(** [blob.download_as_bytes()]: besides returning the contents it loads
    the stored content type into the local object. *)
Definition download_as_bytes (h : BlobHandle) : M (list Byte.byte * BlobHandle) :=
  request (CallDownload (handle_name h)) (fun b => b)
    (fun b => match bucket_get (handle_name h) b with
              | Some o =>
                  Return (blob_data o,
                          {| handle_name := handle_name h;
                             handle_content_type := blob_content_type o |})
              | None => Raise (NotFound (handle_name h))
              end).

(** ** The compute control gateway *)

(** [compute.instances().get(...).execute()] *)
Definition instances_get : M InstanceInfo :=
  request (CallInstancesGet (GCP_PROJECT_ID env) GCE_ZONE GCE_INSTANCE_NAME)
    (fun b => b) (fun _ => Return (instance_info env)).

(** [compute.instances().setMetadata(..., body=...).execute()] *)
Definition instances_setMetadata (fp : str)
    (items : list (str * option str)) : M unit :=
  request (CallSetMetadata (GCP_PROJECT_ID env) GCE_ZONE GCE_INSTANCE_NAME fp items)
    (fun b => b) (fun _ => Return tt).

(** [compute.instances().start(...).execute()] *)
Definition instances_start : M unit :=
  request (CallStart (GCP_PROJECT_ID env) GCE_ZONE GCE_INSTANCE_NAME)
    (fun b => b) (fun _ => Return tt).

(** [d[key]] on the two dictionaries read from the answer *)
Definition get_metadata (i : InstanceInfo) : M Metadata :=
  match metadata i with
  | Some m => ret m
  | None => raise (KeyError (lit "metadata"))
  end.

Definition get_fingerprint (m : Metadata) : M str :=
  match fingerprint m with
  | Some f => ret f
  | None => raise (KeyError (lit "fingerprint"))
  end.

End Services.

(** ** The request handlers *)

Definition truthy {A} (o : option A) : bool :=
  match o with Some _ => true | None => false end.

(** [list.sort(key=lambda x: x['name'], reverse=True)]: stable, by
    descending name. *)
Fixpoint insert_desc (x : str * str) (l : list (str * str)) : list (str * str) :=
  match l with
  | [] => [x]
  | y :: t => if str_leb (fst y) (fst x) then x :: l else y :: insert_desc x t
  end.

Definition sort_by_name_reverse (l : list (str * str)) : list (str * str) :=
  fold_right insert_desc [] l.

Section Handlers.
Context (U : Unicode) (env : Env).

(** Lines 237-243. *)
Definition source_base_name (url : option str) (file : option FileStorage) : str :=
  match given_file file with
  | Some f => nth 0 (rsplit1 ch_dot (secure_filename U (filename f))) []
  | None =>
      match given_url url with
      | Some u => slice_to 50 (re_sub_unsafe (re_sub_scheme u))
      | None => lit "untitled"
      end
  end.

(** Line 245. *)
Definition transcription_id (url : option str) (file : option FileStorage) : str :=
  source_base_name url file ++ lit "_" ++ strftime (now env).

(** Lines 267-274. *)
Definition metadata_body (input_source_for_vm tid : str) : list (str * option str) :=
  [ (lit "gcs-input-path", Some input_source_for_vm);
    (lit "gcs-output-bucket", Some GCS_BUCKET_NAME);
    (lit "huggingface-token", HUGGING_FACE_TOKEN env);
    (lit "transcription-id", Some tid) ].

(** The body of the [try] statement, lines 267-295. *)
Definition start_worker (input_source_for_vm tid : str) : M Response :=
  info <- instances_get env ;;
  md <- get_metadata info ;;
  metadata_fingerprint <- get_fingerprint md ;;
  instances_setMetadata env metadata_fingerprint
    (metadata_body input_source_for_vm tid) ;;
  instances_start env ;;
  ret (text_response
         (lit "Transcription job '" ++ tid ++
          lit "' initiated. The VM is spinning up.") 200).

(** Lines 249-264: the upload, if there is a file.  [inl] is an early
    return, [inr] the value of [input_source_for_vm]. *)
Definition prepare_input (url : option str) (file : option FileStorage)
    (tid : str) : M (Response + str) :=
  match given_file file with
  | Some f =>
      if negb (allowed_file U (filename f))
      then ret (inl (text_response (lit "Invalid file type") 400))
      else
        let gcs_file_path := tid ++ lit "/" ++ secure_filename U (filename f) in
        upload_from_file env gcs_file_path (stream f) (content_type f) ;;
        ret (inr (lit "gs://" ++ GCS_BUCKET_NAME ++ lit "/" ++ gcs_file_path))
  | None =>
      match given_url url with
      | Some u => ret (inr u)
      | None => ret (inr [])
      end
  end.

(** [POST /transcribe] *)
Definition transcribe (req : Request) : M Response :=
  let url := form_url req in
  let file := files_file req in
  if negb (truthy (given_url url)) && negb (truthy (given_file file))
  then ret (text_response (lit "No URL or file provided") 400)
  else
    let tid := transcription_id url file in
    r <- prepare_input url file tid ;;
    match r with
    | inl early => ret early
    | inr input_source_for_vm =>
        try_except
          (start_worker input_source_for_vm tid)
          (fun e => ret (text_response
                           (lit "Failed to initiate transcription: " ++ exn_str e)
                           500))
    end.

(** The loop of lines 311-320 over the prefixes of the listing. *)
Fixpoint collect_transcriptions (prefixes : list str)
    (transcriptions_data : list (str * str)) : M (list (str * str)) :=
  match prefixes with
  | [] => ret transcriptions_data
  | prefix :: rest =>
      let folder_name := drop_last prefix in
      blobs_in_folder <- list_blobs env prefix ;;
      match find (fun blob => endswith (lit ".txt") (fst blob)) blobs_in_folder with
      | Some txt_file_blob =>
          let download_url := url_for_download_file env (fst txt_file_blob) in
          collect_transcriptions rest
            (transcriptions_data ++ [(folder_name, download_url)])
      | None => collect_transcriptions rest transcriptions_data
      end
  end.

(** [GET /transcriptions] *)
Definition list_transcriptions : M Response :=
  try_except
    (prefixes <- list_prefixes env ;;
     transcriptions_data <- collect_transcriptions prefixes [] ;;
     ret (json_response (JsonList (sort_by_name_reverse transcriptions_data)) 200))
    (fun e => ret (json_response (JsonError (exn_str e)) 500)).

(** [GET /download/<path:path>] *)
Definition download_file (path : str) : M Response :=
  try_except
    (let blob := bucket_blob path in
     found <- blob_exists env blob ;;
     if negb found
     then ret (text_response (lit "File not found") 404)
     else
       r <- download_as_bytes env blob ;;
       let '(data, blob) := r in
       ret {| status := 200;
              body := Bytes data;
              mimetype := match nonempty (handle_content_type blob) with
                          | Some t => t
                          | None => lit "application/octet-stream"
                          end;
              headers := [ {| header_name := lit "Content-Disposition";
                              header_value := lit "attachment";
                              header_options := [(lit "filename", basename path)] |} ] |})
    (fun e => ret (text_response (lit "Failed to serve file: " ++ exn_str e) 500)).

End Handlers.

(** What Flask answers when a view function lets an exception escape. *)
Definition flask_response (o : Outcome Response) : Response :=
  match o with
  | Return r => r
  | Raise _ => text_response (lit "Internal Server Error") 500
  end.

(** ** Vocabulary of the specification *)

(** A timestamp [YYYYMMDD-HHMMSS]. *)
Definition is_timestamp (ts : str) : bool :=
  match ts with
  | [y1; y2; y3; y4; m1; m2; d1; d2; h; H1; H2; M1; M2; S1; S2] =>
      forallb is_digit [y1; y2; y3; y4; m1; m2; d1; d2] && (h =? ch_hyphen)
      && forallb is_digit [H1; H2; M1; M2; S1; S2]
  | _ => false
  end.

(** [base] is [name] without its extension: the part before the last
    dot, or all of [name] when it has no dot. *)
Definition extension_stripped (name base : str) : Prop :=
  (exists ext, name = base ++ ch_dot :: ext /\ contains ch_dot ext = false)
  \/ (name = base /\ contains ch_dot name = false).

Definition no_path_separator (s : str) : Prop :=
  Forall (fun c => c <> ch_slash /\ c <> ch_backslash) s.

(** The base name of a URL job in the words of the specification: the
    scheme stripped, every non-alphanumeric character replaced by an
    underscore, at most 50 characters kept. *)
Definition strip_scheme (url : str) : str :=
  if startswith (lit "http://") url then skipn 7 url
  else if startswith (lit "https://") url then skipn 8 url
  else url.

Definition claimed_url_base_name (url : str) : str :=
  firstn 50 (map (fun c => if is_alnum c then c else ch_underscore)
                 (strip_scheme url)).

(** [r] is [s] with every occurrence of [http://] or [https://] deleted,
    found from left to right. *)
Inductive schemes_removed : str -> str -> Prop :=
| sr_end : schemes_removed [] []
| sr_http s r :
    schemes_removed s r -> schemes_removed (lit "http://" ++ s) r
| sr_https s r :
    schemes_removed s r -> schemes_removed (lit "https://" ++ s) r
| sr_keep c s r :
    startswith (lit "http://") (c :: s) = false ->
    startswith (lit "https://") (c :: s) = false ->
    schemes_removed s r -> schemes_removed (c :: s) (c :: r).

(** [x] is the first element of [l] that satisfies [p]. *)
Definition first_match {A} (p : A -> bool) (l : list A) (x : A) : Prop :=
  exists l1 l2, l = l1 ++ x :: l2 /\ p x = true /\ Forall (fun y => p y = false) l1.

(** The objects of [folder] whose name ends in [.txt]. *)
Definition txt_in_folder (folder : str) (o : str * Blob) : bool :=
  startswith (folder ++ [ch_slash]) (fst o) && endswith (lit ".txt") (fst o).

Definition is_set_metadata (c : Call) : bool :=
  match c with CallSetMetadata _ _ _ _ _ => true | _ => false end.

Definition is_start (c : Call) : bool :=
  match c with CallStart _ _ _ => true | _ => false end.

Definition is_upload (c : Call) : bool :=
  match c with CallUpload _ _ _ => true | _ => false end.

(** The value of a metadata item. *)
Fixpoint item_value (key : str) (items : list (str * option str)) : option (option str) :=
  match items with
  | [] => None
  | (k, v) :: rest => if str_eqb k key then Some v else item_value key rest
  end.

(** The URI of the object a file upload creates. *)
Definition uploaded_object_uri (U : Unicode) (env : Env) (req : Request)
    (f : FileStorage) : str :=
  lit "gs://" ++ GCS_BUCKET_NAME ++ lit "/" ++
  transcription_id U env (form_url req) (files_file req) ++ lit "/" ++
  secure_filename U (filename f).

(** The path of that object in the bucket. *)
Definition uploaded_object_path (U : Unicode) (env : Env) (req : Request)
    (f : FileStorage) : str :=
  transcription_id U env (form_url req) (files_file req) ++ lit "/" ++
  secure_filename U (filename f).

(** The object an upload of [f] stores. *)
Definition stored_blob (f : FileStorage) : Blob :=
  {| blob_data := stream f;
     blob_content_type :=
       Some (match content_type f with
             | Some t => t
             | None => lit "application/octet-stream"
             end) |}.

(** An exception [e] comes out of the metadata fetch, the metadata update
    or the start of the instance, for the job [input], [tid]. *)
Inductive vm_step_raises (env : Env) (input tid : str) (e : Exn) : Prop :=
| raised_by_get :
    raises env (CallInstancesGet (GCP_PROJECT_ID env) GCE_ZONE GCE_INSTANCE_NAME)
      = Some e ->
    vm_step_raises env input tid e
| raised_by_answer :
    raises env (CallInstancesGet (GCP_PROJECT_ID env) GCE_ZONE GCE_INSTANCE_NAME)
      = None ->
    (metadata (instance_info env) = None /\ e = KeyError (lit "metadata")
     \/ exists md, metadata (instance_info env) = Some md /\
                   fingerprint md = None /\ e = KeyError (lit "fingerprint")) ->
    vm_step_raises env input tid e
| raised_by_setMetadata md fp :
    raises env (CallInstancesGet (GCP_PROJECT_ID env) GCE_ZONE GCE_INSTANCE_NAME)
      = None ->
    metadata (instance_info env) = Some md -> fingerprint md = Some fp ->
    raises env (CallSetMetadata (GCP_PROJECT_ID env) GCE_ZONE GCE_INSTANCE_NAME
                  fp (metadata_body env input tid)) = Some e ->
    vm_step_raises env input tid e
| raised_by_start md fp :
    raises env (CallInstancesGet (GCP_PROJECT_ID env) GCE_ZONE GCE_INSTANCE_NAME)
      = None ->
    metadata (instance_info env) = Some md -> fingerprint md = Some fp ->
    raises env (CallSetMetadata (GCP_PROJECT_ID env) GCE_ZONE GCE_INSTANCE_NAME
                  fp (metadata_body env input tid)) = None ->
    raises env (CallStart (GCP_PROJECT_ID env) GCE_ZONE GCE_INSTANCE_NAME) = Some e ->
    vm_step_raises env input tid e.

(** The submission [req] gets past validation and the upload step, and
    [input] is the input source handed to the worker. *)
Inductive submitted (U : Unicode) (env : Env) (req : Request) : str -> Prop :=
| submitted_file f :
    given_file (files_file req) = Some f ->
    allowed_file U (filename f) = true ->
    raises env (CallUpload (uploaded_object_path U env req f)
                  (stream f) (content_type f)) = None ->
    submitted U env req (uploaded_object_uri U env req f)
| submitted_url u :
    given_file (files_file req) = None ->
    given_url (form_url req) = Some u ->
    submitted U env req u.

(** The requests the [try] statement can send for the job [input], [tid]. *)
Definition worker_call (env : Env) (input tid : str) (c : Call) : Prop :=
  c = CallInstancesGet (GCP_PROJECT_ID env) GCE_ZONE GCE_INSTANCE_NAME
  \/ (exists fp, c = CallSetMetadata (GCP_PROJECT_ID env) GCE_ZONE
                       GCE_INSTANCE_NAME fp (metadata_body env input tid))
  \/ c = CallStart (GCP_PROJECT_ID env) GCE_ZONE GCE_INSTANCE_NAME.

(** The bucket and the trace once the upload step of an accepted
    submission is over. *)
Definition after_upload (U : Unicode) (env : Env) (req : Request)
    (b : Bucket) : Bucket * list Call :=
  match given_file (files_file req) with
  | Some f =>
      (bucket_put (uploaded_object_path U env req f) (stored_blob f) b,
       [CallUpload (uploaded_object_path U env req f) (stream f) (content_type f)])
  | None => (b, [])
  end.

(** The two answers of [transcribe] that follow the [try] statement. *)
Definition initiated_response (tid : str) : Response :=
  text_response
    (lit "Transcription job '" ++ tid ++ lit "' initiated. The VM is spinning up.")
    200.

Definition failed_response (e : Exn) : Response :=
  text_response (lit "Failed to initiate transcription: " ++ exn_str e) 500.

(** The three requests to the compute API. *)
Definition get_call (env : Env) : Call :=
  CallInstancesGet (GCP_PROJECT_ID env) GCE_ZONE GCE_INSTANCE_NAME.

Definition set_call (env : Env) (fp input tid : str) : Call :=
  CallSetMetadata (GCP_PROJECT_ID env) GCE_ZONE GCE_INSTANCE_NAME fp
    (metadata_body env input tid).

Definition start_call (env : Env) : Call :=
  CallStart (GCP_PROJECT_ID env) GCE_ZONE GCE_INSTANCE_NAME.

(** What the loop of [list_transcriptions] collects from [prefixes]. *)
Definition found_in (env : Env) (b : Bucket) (prefixes : list str) : list (str * str) :=
  flat_map
    (fun prefix =>
       match find (fun blob => endswith (lit ".txt") (fst blob))
                  (bucket_under prefix b) with
       | Some o => [(drop_last prefix, url_for_download_file env (fst o))]
       | None => []
       end)
    prefixes.

(** Descending order of the names, weak and strict. *)
Definition name_geb (x y : str * str) : Prop := str_leb (fst y) (fst x) = true.
Definition name_gtb (x y : str * str) : Prop := str_ltb (fst y) (fst x) = true.

(** The size limit the page announces and checks before it submits. *)
Definition MAX_UPLOAD_BYTES : N := 16 * 1024 * 1024.

(** ** Sample data *)

Definition sample_now : DateTime :=
  {| year := 2026; month := 2; day := 7; hour := 9; minute := 5; second := 30 |}.

(** An environment in which every service request is answered. *)
Definition sample_env : Env :=
  {| GCP_PROJECT_ID := Some (lit "demo-project");
     HUGGING_FACE_TOKEN := Some (lit "hf_token");
     now := sample_now;
     raises := fun _ => None;
     instance_info := {| metadata := Some {| fingerprint := Some (lit "fp0") |} |};
     url_for_download_file := fun p => lit "http://localhost/download/" ++ p |}.

(** The same, except that starting the instance fails. *)
Definition failing_start_env : Env :=
  {| GCP_PROJECT_ID := Some (lit "demo-project");
     HUGGING_FACE_TOKEN := Some (lit "hf_token");
     now := sample_now;
     raises := fun c => if is_start c then Some (ApiError (lit "quota exceeded"))
                        else None;
     instance_info := {| metadata := Some {| fingerprint := Some (lit "fp0") |} |};
     url_for_download_file := fun p => lit "http://localhost/download/" ++ p |}.

Definition sample_file (name : string) (data : list Byte.byte) : FileStorage :=
  {| filename := lit name; content_type := Some (lit "audio/mpeg"); stream := data |}.

Definition sample_blob : Blob :=
  {| blob_data := [Byte.x68; Byte.x69]; blob_content_type := Some (lit "text/plain") |}.

Definition sample_bucket : Bucket :=
  [ (lit "a_20240101-000000/input.mp3", sample_blob);
    (lit "b_20240102-000000/input.mp3", sample_blob);
    (lit "b_20240102-000000/result.txt", sample_blob) ].

Definition sample_url : str := lit "https://example.com/a-b".

(** A submission of [talk.mp3], alone and together with a URL. *)
Definition sample_upload : FileStorage := sample_file "talk.mp3" [Byte.x52; Byte.x49].

Definition file_request : Request :=
  {| form_url := None; files_file := Some sample_upload |}.

Definition file_and_url_request : Request :=
  {| form_url := Some sample_url; files_file := Some sample_upload |}.

Definition url_request : Request :=
  {| form_url := Some sample_url; files_file := None |}.

Definition exe_request : Request :=
  {| form_url := Some sample_url;
     files_file := Some (sample_file "setup.exe" [Byte.x4d; Byte.x5a]) |}.

Definition empty_request : Request :=
  {| form_url := Some []; files_file := None |}.

(** ** Vocabulary of the further properties *)

(** The requests of a [try] statement that stopped at an exception: the
    fetch alone, or the fetch and the update carrying the fetched
    fingerprint, or these two and the start that followed an accepted
    update. *)
Definition worker_prefix (env : Env) (input tid : str) (w : list Call) : Prop :=
  w = [get_call env]
  \/ exists md fp,
       raises env (get_call env) = None /\
       metadata (instance_info env) = Some md /\ fingerprint md = Some fp /\
       (w = [get_call env; set_call env fp input tid]
        \/ raises env (set_call env fp input tid) = None /\
           w = [get_call env; set_call env fp input tid; start_call env]).

(** The four ways a run of [transcribe] can go. *)
Inductive transcribe_run (U : Unicode) (env : Env) (req : Request) (b : Bucket) :
    Outcome Response * Bucket * list Call -> Prop :=
| run_rejected r :
    status r = 400 ->
    transcribe_run U env req b (Return r, b, [])
| run_upload_raised f e :
    given_file (files_file req) = Some f ->
    allowed_file U (filename f) = true ->
    raises env (CallUpload (uploaded_object_path U env req f)
                  (stream f) (content_type f)) = Some e ->
    transcribe_run U env req b
      (Raise e, b,
       [CallUpload (uploaded_object_path U env req f) (stream f) (content_type f)])
| run_initiated input md fp :
    submitted U env req input ->
    raises env (get_call env) = None ->
    metadata (instance_info env) = Some md -> fingerprint md = Some fp ->
    raises env (set_call env fp input
                  (transcription_id U env (form_url req) (files_file req))) = None ->
    raises env (start_call env) = None ->
    transcribe_run U env req b
      (Return (initiated_response
                 (transcription_id U env (form_url req) (files_file req))),
       fst (after_upload U env req b),
       snd (after_upload U env req b) ++
         [get_call env;
          set_call env fp input
            (transcription_id U env (form_url req) (files_file req));
          start_call env])
| run_failed input e w :
    submitted U env req input ->
    vm_step_raises env input
      (transcription_id U env (form_url req) (files_file req)) e ->
    worker_prefix env input
      (transcription_id U env (form_url req) (files_file req)) w ->
    transcribe_run U env req b
      (Return (failed_response e),
       fst (after_upload U env req b),
       snd (after_upload U env req b) ++ w).


Definition is_lookup (c : Call) : bool :=
  match c with CallExists _ | CallDownload _ => true | _ => false end.

(** The instant of a [DateTime], to the second, as one number. *)
Definition time_key (d : DateTime) : N :=
  ((((year d * 100 + month d) * 100 + day d) * 100 + hour d) * 100
   + minute d) * 100 + second d.

(** The number a run of decimal digits denotes, [acc] being the value
    of the digits before it. *)
Fixpoint digits_value (acc : N) (ds : list N) : N :=
  match ds with
  | [] => acc
  | d :: t => digits_value (10 * acc + d) t
  end.

(** Neither [http://] nor [https://] occurs anywhere in [s]. *)
Definition scheme_free (s : str) : Prop :=
  forall i, scheme_match (skipn i s) = None.

(** An environment whose store fails to list the folder
    [b_20240102-000000/]. *)
Definition failing_listing_env : Env :=
  {| GCP_PROJECT_ID := Some (lit "demo-project");
     HUGGING_FACE_TOKEN := Some (lit "hf_token");
     now := sample_now;
     raises := fun c =>
       match c with
       | CallListBlobs p =>
           if str_eqb p (lit "b_20240102-000000/")
           then Some (ApiError (lit "503 backend error"))
           else None
       | _ => None
       end;
     instance_info := {| metadata := Some {| fingerprint := Some (lit "fp0") |} |};
     url_for_download_file := fun p => lit "http://localhost/download/" ++ p |}.

(** The sample environment one second later. *)
Definition sample_later : DateTime :=
  {| year := 2026; month := 2; day := 7; hour := 9; minute := 5; second := 31 |}.

Definition later_env : Env :=
  {| GCP_PROJECT_ID := Some (lit "demo-project");
     HUGGING_FACE_TOKEN := Some (lit "hf_token");
     now := sample_later;
     raises := fun _ => None;
     instance_info := {| metadata := Some {| fingerprint := Some (lit "fp0") |} |};
     url_for_download_file := fun p => lit "http://localhost/download/" ++ p |}.

(** * Properties *)

(** ** Strings *)

Lemma str_eqb_eq (a b : str) : str_eqb a b = true <-> a = b.
Proof.
  revert b; induction a as [|x a IH]; intros [|y b]; simpl;
    try (split; [discriminate | congruence]); try tauto.
  rewrite andb_true_iff, N.eqb_eq, IH. split.
  - intros [-> ->]; reflexivity.
  - intros H; inversion H; auto.
Qed.

Lemma str_eqb_refl (a : str) : str_eqb a a = true.
Proof. apply str_eqb_eq; reflexivity. Qed.

Lemma str_eqb_neq (a b : str) : str_eqb a b = false <-> a <> b.
Proof.
  rewrite <- str_eqb_eq. destruct (str_eqb a b); split; congruence.
Qed.

Lemma str_compare_eq (a b : str) : str_compare a b = Eq <-> a = b.
Proof.
  revert b; induction a as [|x a IH]; intros [|y b]; simpl;
    try (split; [discriminate | congruence]); try tauto.
  destruct (N.compare_spec x y) as [->|Hlt|Hgt].
  - rewrite IH. split; [intros ->; reflexivity | intros H; inversion H; auto].
  - split; [discriminate | intros H; inversion H; lia].
  - split; [discriminate | intros H; inversion H; lia].
Qed.

Lemma str_compare_antisym (a b : str) :
  str_compare b a = CompOpp (str_compare a b).
Proof.
  revert b; induction a as [|x a IH]; intros [|y b]; simpl; auto.
  rewrite (N.compare_antisym x y).
  destruct (x ?= y); simpl; auto.
Qed.

Lemma str_compare_lt_trans (a b c : str) :
  str_compare a b = Lt -> str_compare b c = Lt -> str_compare a c = Lt.
Proof.
  revert b c; induction a as [|x a IH]; intros [|y b] [|z c]; simpl;
    try discriminate; auto.
  destruct (N.compare_spec x y) as [->|Hxy|Hxy]; try discriminate.
  - destruct (N.compare_spec y z) as [->|Hyz|Hyz]; try discriminate; auto.
    apply IH.
  - destruct (N.compare_spec y z) as [->|Hyz|Hyz]; try discriminate; intros _ _.
    + destruct (N.compare_spec x z); auto; lia.
    + destruct (N.compare_spec x z); auto; lia.
Qed.

Lemma str_leb_total (a b : str) : str_leb a b = false -> str_leb b a = true.
Proof.
  unfold str_leb. rewrite (str_compare_antisym a b).
  destruct (str_compare a b); simpl; congruence.
Qed.

Lemma str_leb_trans (a b c : str) :
  str_leb a b = true -> str_leb b c = true -> str_leb a c = true.
Proof.
  unfold str_leb.
  destruct (str_compare a b) eqn:Hab; try discriminate;
    destruct (str_compare b c) eqn:Hbc; try discriminate; intros _ _.
  - apply str_compare_eq in Hab, Hbc; subst.
    rewrite (proj2 (str_compare_eq c c) eq_refl); reflexivity.
  - apply str_compare_eq in Hab; subst. rewrite Hbc; reflexivity.
  - apply str_compare_eq in Hbc; subst. rewrite Hab; reflexivity.
  - rewrite (str_compare_lt_trans _ _ _ Hab Hbc); reflexivity.
Qed.

Lemma startswith_app (p s : str) : startswith p (p ++ s) = true.
Proof.
  induction p as [|x p IH]; simpl; auto.
  rewrite N.eqb_refl; auto.
Qed.

Lemma startswith_split (p s : str) :
  startswith p s = true -> s = p ++ skipn (List.length p) s.
Proof.
  revert s; induction p as [|x p IH]; intros [|y s]; simpl; try discriminate; auto.
  rewrite andb_true_iff, N.eqb_eq. intros [-> H].
  f_equal; auto.
Qed.

Lemma contains_false (c : char) (s : str) :
  contains c s = false <-> ~ In c s.
Proof.
  unfold contains. split.
  - intros H Hin. assert (existsb (N.eqb c) s = true); [|congruence].
    apply existsb_exists. exists c. split; auto. apply N.eqb_refl.
  - intros H. destruct (existsb (N.eqb c) s) eqn:E; auto.
    apply existsb_exists in E. destruct E as [x [Hin Hx]].
    apply N.eqb_eq in Hx. subst. contradiction.
Qed.

Lemma rsplit_last_some (sep : char) (s a b : str) :
  rsplit_last sep s = Some (a, b) ->
  s = a ++ sep :: b /\ contains sep b = false.
Proof.
  revert a b; induction s as [|c t IH]; simpl; intros a b; try discriminate.
  destruct (rsplit_last sep t) as [[a' b']|] eqn:E.
  - intros H; inversion H; subst. destruct (IH _ _ eq_refl) as [-> Hb].
    split; auto.
  - destruct (N.eqb_spec c sep) as [->|]; try discriminate.
    intros H; inversion H; subst. split; auto.
    clear IH H. induction b as [|x b IHb]; simpl in *; auto.
    destruct (rsplit_last sep b) as [[? ?]|]; try discriminate.
    destruct (N.eqb_spec x sep) as [->|Hne]; try discriminate.
    unfold contains in *; simpl.
    destruct (N.eqb_spec sep x); [congruence|]. simpl. auto.
Qed.

Lemma rsplit_last_none (sep : char) (s : str) :
  rsplit_last sep s = None -> contains sep s = false.
Proof.
  induction s as [|c t IH]; simpl; auto.
  destruct (rsplit_last sep t) as [[? ?]|]; try discriminate.
  destruct (N.eqb_spec c sep) as [->|Hne]; try discriminate.
  intros _. unfold contains in *; simpl.
  destruct (N.eqb_spec sep c); [congruence|]. simpl; auto.
Qed.

(** Taking the part before the last dot keeps a prefix of the string. *)
Lemma rsplit1_head (s : str) :
  extension_stripped s (nth 0 (rsplit1 ch_dot s) []).
Proof.
  unfold rsplit1, extension_stripped.
  destruct (rsplit_last ch_dot s) as [[a b]|] eqn:E; simpl.
  - left. exists b. apply rsplit_last_some; auto.
  - right. split; auto. apply rsplit_last_none; auto.
Qed.

Lemma Forall_dropwhile (P : char -> Prop) (q : char -> bool) (s : str) :
  Forall P s -> Forall P (dropwhile q s).
Proof.
  induction 1 as [|c t Hc Ht IH]; simpl; auto.
  destruct (q c); auto.
Qed.

Lemma Forall_strip (P : char -> Prop) (chars s : str) :
  Forall P s -> Forall P (strip chars s).
Proof.
  intros H. unfold strip.
  apply Forall_rev, Forall_dropwhile, Forall_rev, Forall_dropwhile, H.
Qed.

Lemma Forall_filter_true (p : char -> bool) (s : str) :
  Forall (fun c => p c = true) (filter p s).
Proof.
  apply Forall_forall. intros c Hc. apply filter_In in Hc. tauto.
Qed.

Lemma extension_stripped_Forall (P : char -> Prop) (name base : str) :
  extension_stripped name base -> Forall P name -> Forall P base.
Proof.
  intros [[ext [-> _]]|[-> _]] H; auto.
  apply Forall_app in H. tauto.
Qed.

Lemma is_safe_no_separator (c : char) :
  is_safe c = true -> c <> ch_slash /\ c <> ch_backslash.
Proof.
  unfold is_safe, is_alnum, is_digit, is_upper, is_lower,
    ch_underscore, ch_dot, ch_hyphen, ch_slash, ch_backslash.
  rewrite !orb_true_iff, !andb_true_iff, !N.leb_le, !N.eqb_eq. lia.
Qed.

(** [secure_filename] returns characters of [[A-Za-z0-9_.-]] only. *)
Lemma secure_filename_safe (U : Unicode) (name : str) :
  Forall (fun c => is_safe c = true) (secure_filename U name).
Proof.
  unfold secure_filename, filename_ascii_strip.
  apply Forall_strip, Forall_filter_true.
Qed.

(** ** Timestamps *)

Lemma digit_is_digit (n : N) : is_digit (digit n) = true.
Proof.
  unfold is_digit, digit.
  assert (n mod 10 < 10) as H by (apply N.mod_upper_bound; lia).
  revert H. generalize (n mod 10). intros m H.
  rewrite andb_true_iff, !N.leb_le. lia.
Qed.

Lemma strftime_is_timestamp (d : DateTime) : is_timestamp (strftime d) = true.
Proof.
  unfold strftime, pad4, pad2, is_timestamp; simpl.
  rewrite !digit_is_digit. reflexivity.
Qed.

(** On the dates [datetime.now()] can return, the digits are the decimal
    digits of the fields. *)
Lemma two_digits (n : N) :
  n < 100 -> n = 10 * ((n / 10) mod 10) + n mod 10.
Proof.
  intros Hn. rewrite (N.mod_small (n / 10)).
  - apply N.div_mod'.
  - apply N.Div0.div_lt_upper_bound. lia.
Qed.

Lemma four_digits (y : N) :
  y < 10000 ->
  y = 100 * (10 * ((y / 1000) mod 10) + (y / 100) mod 10)
      + (10 * ((y / 10) mod 10) + y mod 10).
Proof.
  intros H.
  pose proof (N.div_mod' y 10) as E1.
  pose proof (N.div_mod' (y / 10) 10) as E2.
  pose proof (N.div_mod' (y / 100) 10) as E3.
  replace (y / 10 / 10) with (y / 100) in E2
    by (rewrite N.Div0.div_div; reflexivity).
  replace (y / 100 / 10) with (y / 1000) in E3
    by (rewrite N.Div0.div_div; reflexivity).
  rewrite (N.mod_small (y / 1000)) by (apply N.Div0.div_lt_upper_bound; lia).
  lia.
Qed.

Lemma strftime_decimal (d : DateTime) :
  valid_datetime d ->
  let v (a b : N) := 10 * (a mod 10) + b mod 10 in
  year d = 100 * v (year d / 1000) (year d / 100) + v (year d / 10) (year d) /\
  month d = v (month d / 10) (month d) /\
  day d = v (day d / 10) (day d) /\
  hour d = v (hour d / 10) (hour d) /\
  minute d = v (minute d / 10) (minute d) /\
  second d = v (second d / 10) (second d).
Proof.
  intros (Hy & Hm & Hd & Hh & Hmi & Hs) v. unfold v.
  repeat split; try (apply two_digits; lia).
  apply four_digits; lia.
Qed.

(** ** Job submission: rejected requests *)

Section Submission.
Context (U : Unicode) (env : Env).

(** C9.  A request with neither a URL nor a file (an absent or empty
    [url] field, no file part or one without a file name) is answered
    with status 400; the bucket is untouched and no request is sent to
    the object store or to the compute API. *)
Theorem transcribe_without_input (req : Request) (b : Bucket) :
  given_url (form_url req) = None ->
  given_file (files_file req) = None ->
  transcribe U env req b =
    (Return (text_response (lit "No URL or file provided") 400), b, []).
Proof.
  intros Hu Hf. unfold transcribe. rewrite Hu, Hf. reflexivity.
Qed.

(** C8.  A request whose file has a name outside the allow-list is
    answered with status 400, whatever else it carries; the bucket is
    untouched and neither an upload nor a metadata fetch, metadata update
    or start request is sent. *)
Theorem transcribe_invalid_file_type (req : Request) (f : FileStorage) (b : Bucket) :
  given_file (files_file req) = Some f ->
  allowed_file U (filename f) = false ->
  transcribe U env req b =
    (Return (text_response (lit "Invalid file type") 400), b, []).
Proof.
  intros Hf Ha. unfold transcribe, prepare_input. rewrite Hf, Ha.
  rewrite andb_false_r. reflexivity.
Qed.

End Submission.

(** ** The bucket *)

Lemma bucket_get_put (path : str) (o : Blob) (b : Bucket) :
  bucket_get path (bucket_put path o b) = Some o.
Proof.
  induction b as [|[n x] rest IH]; simpl.
  - rewrite str_eqb_refl; reflexivity.
  - destruct (str_compare path n) eqn:E; simpl.
    + rewrite str_eqb_refl; reflexivity.
    + rewrite str_eqb_refl; reflexivity.
    + destruct (str_eqb n path) eqn:En; auto.
      apply str_eqb_eq in En; subst.
      rewrite (proj2 (str_compare_eq path path) eq_refl) in E; discriminate.
Qed.

Lemma bucket_get_put_other (path q : str) (o : Blob) (b : Bucket) :
  q <> path -> bucket_get q (bucket_put path o b) = bucket_get q b.
Proof.
  intros Hne. induction b as [|[n x] rest IH]; simpl.
  - destruct (str_eqb path q) eqn:E; auto.
    apply str_eqb_eq in E; congruence.
  - destruct (str_compare path n) eqn:E; simpl.
    + apply str_compare_eq in E; subst n.
      destruct (str_eqb path q) eqn:E'; auto.
      apply str_eqb_eq in E'; congruence.
    + destruct (str_eqb path q) eqn:E'; auto.
      apply str_eqb_eq in E'; congruence.
    + rewrite IH; reflexivity.
Qed.

(** ** Job submission: the calls to the worker *)

Section Worker.
Context (env : Env).

Lemma start_worker_ok (input tid : str) (b : Bucket) (md : Metadata) (fp : str) :
  raises env (get_call env) = None ->
  metadata (instance_info env) = Some md ->
  fingerprint md = Some fp ->
  raises env (set_call env fp input tid) = None ->
  raises env (start_call env) = None ->
  start_worker env input tid b =
    (Return (text_response
               (lit "Transcription job '" ++ tid ++
                lit "' initiated. The VM is spinning up.") 200),
     b, [get_call env; set_call env fp input tid; start_call env]).
Proof.
  unfold get_call, set_call, start_call. intros Hg Hm Hf Hs Hst.
  unfold start_worker, bind, instances_get, instances_setMetadata,
    instances_start, get_metadata, get_fingerprint, request.
  rewrite Hg, Hm. unfold ret at 1. rewrite Hf. unfold ret at 1.
  rewrite Hs, Hst. reflexivity.
Qed.

Lemma start_worker_raises (input tid : str) (b : Bucket) (e : Exn) :
  vm_step_raises env input tid e ->
  exists t, start_worker env input tid b = (Raise e, b, t)
            /\ Forall (worker_call env input tid) t.
Proof.
  unfold start_worker, bind, instances_get, instances_setMetadata,
    instances_start, get_metadata, get_fingerprint, request.
  assert (Hget : worker_call env input tid
                   (CallInstancesGet (GCP_PROJECT_ID env) GCE_ZONE GCE_INSTANCE_NAME))
    by (left; reflexivity).
  assert (Hset : forall fp, worker_call env input tid
                   (CallSetMetadata (GCP_PROJECT_ID env) GCE_ZONE
                      GCE_INSTANCE_NAME fp (metadata_body env input tid)))
    by (intros fp; right; left; exists fp; reflexivity).
  assert (Hstart : worker_call env input tid
                   (CallStart (GCP_PROJECT_ID env) GCE_ZONE GCE_INSTANCE_NAME))
    by (right; right; reflexivity).
  intros [Hg | Hg [[Hm ->] | [md [Hm [Hf ->]]]] | md fp Hg Hm Hf Hs
          | md fp Hg Hm Hf Hs Hst]; rewrite Hg.
  - eexists; split; [reflexivity | auto].
  - rewrite Hm. eexists; split; [reflexivity | simpl; auto].
  - rewrite Hm. unfold ret at 1. rewrite Hf.
    eexists; split; [reflexivity | simpl; auto].
  - rewrite Hm. unfold ret at 1. rewrite Hf. unfold ret at 1. rewrite Hs.
    eexists; split; [reflexivity | simpl; auto].
  - rewrite Hm. unfold ret at 1. rewrite Hf. unfold ret at 1. rewrite Hs, Hst.
    eexists; split; [reflexivity | simpl; auto].
Qed.

(** The [try] block either sends its three requests and returns 200, or
    one of its steps raises. *)
Lemma start_worker_cases (input tid : str) (b : Bucket) :
  (exists md fp,
      raises env (get_call env) = None /\
      metadata (instance_info env) = Some md /\ fingerprint md = Some fp /\
      raises env (set_call env fp input tid) = None /\
      raises env (start_call env) = None)
  \/ (exists e, vm_step_raises env input tid e).
Proof.
  unfold get_call, set_call, start_call.
  destruct (raises env (CallInstancesGet (GCP_PROJECT_ID env) GCE_ZONE
                          GCE_INSTANCE_NAME)) as [e|] eqn:Hg.
  { right; exists e; apply raised_by_get; auto. }
  destruct (metadata (instance_info env)) as [md|] eqn:Hm.
  2:{ right; eexists; apply raised_by_answer; auto. }
  destruct (fingerprint md) as [fp|] eqn:Hf.
  2:{ right; eexists; apply raised_by_answer; auto. right; exists md; auto. }
  destruct (raises env (CallSetMetadata (GCP_PROJECT_ID env) GCE_ZONE
              GCE_INSTANCE_NAME fp (metadata_body env input tid))) as [e|] eqn:Hs.
  { right; exists e; eapply raised_by_setMetadata; eauto. }
  destruct (raises env (CallStart (GCP_PROJECT_ID env) GCE_ZONE
                          GCE_INSTANCE_NAME)) as [e|] eqn:Hst.
  { right; exists e; eapply raised_by_start; eauto. }
  left. exists md, fp. auto.
Qed.

End Worker.

Section Transcribe.
Context (U : Unicode) (env : Env).

(** Up to the [try] statement, an accepted submission has done its upload
    and nothing else. *)
Lemma transcribe_submitted (req : Request) (b : Bucket) (input : str) :
  submitted U env req input ->
  transcribe U env req b =
    match try_except (start_worker env input (transcription_id U env (form_url req) (files_file req)))
            (fun e => ret (failed_response e))
            (fst (after_upload U env req b)) with
    | (o, b2, t2) => (o, b2, snd (after_upload U env req b) ++ t2)
    end.
Proof.
  unfold after_upload.
  intros [f Hf Ha Hup | u Hf Hu]; unfold transcribe, prepare_input;
    rewrite Hf.
  - rewrite Ha, andb_false_r. cbv beta iota zeta. simpl negb.
    unfold uploaded_object_path in Hup.
    unfold bind at 1. unfold bind at 1.
    unfold upload_from_file, request. rewrite Hup.
    unfold ret at 1. reflexivity.
  - rewrite Hu. simpl. unfold bind at 1. unfold ret at 1.
    destruct (try_except _ _ b) as [[o b2] t2]. reflexivity.
Qed.

Lemma transcribe_initiates (req : Request) (b : Bucket) (input : str)
    (md : Metadata) (fp : str) :
  submitted U env req input ->
  raises env (get_call env) = None ->
  metadata (instance_info env) = Some md ->
  fingerprint md = Some fp ->
  raises env (set_call env fp input (transcription_id U env (form_url req) (files_file req))) = None ->
  raises env (start_call env) = None ->
  transcribe U env req b =
    (Return (initiated_response (transcription_id U env (form_url req) (files_file req))),
     fst (after_upload U env req b),
     snd (after_upload U env req b) ++
       [get_call env; set_call env fp input (transcription_id U env (form_url req) (files_file req)); start_call env]).
Proof.
  intros Hsub Hg Hm Hf Hs Hst.
  rewrite (transcribe_submitted _ _ _ Hsub). unfold try_except.
  rewrite (start_worker_ok env _ _ _ md fp); auto.
Qed.

Lemma transcribe_fails (req : Request) (b : Bucket) (input : str) (e : Exn) :
  submitted U env req input ->
  vm_step_raises env input (transcription_id U env (form_url req) (files_file req)) e ->
  exists t,
    transcribe U env req b =
      (Return (failed_response e),
       fst (after_upload U env req b),
       snd (after_upload U env req b) ++ t)
    /\ Forall (worker_call env input (transcription_id U env (form_url req) (files_file req))) t.
Proof.
  intros Hsub Hr.
  rewrite (transcribe_submitted _ _ _ Hsub). unfold try_except.
  destruct (start_worker_raises env _ _ (fst (after_upload U env req b)) _ Hr)
    as [t [-> Ht]].
  exists t. split; auto. unfold ret. rewrite app_nil_r. reflexivity.
Qed.

(** Every request is rejected, or fails in its upload, or is an accepted
    submission. *)
Lemma transcribe_cases (req : Request) (b : Bucket) :
  (exists r, status r = 400 /\ transcribe U env req b = (Return r, b, []))
  \/ (exists e t, transcribe U env req b = (Raise e, b, t))
  \/ (exists input, submitted U env req input).
Proof.
  destruct (given_file (files_file req)) as [f|] eqn:Hf.
  - destruct (allowed_file U (filename f)) eqn:Ha.
    + destruct (raises env (CallUpload (uploaded_object_path U env req f)
                              (stream f) (content_type f))) as [e|] eqn:Hup.
      * right; left. exists e. eexists.
        unfold transcribe, prepare_input. rewrite Hf, Ha, andb_false_r.
        cbv beta iota zeta. simpl negb.
        unfold uploaded_object_path in Hup.
        unfold bind at 1. unfold bind at 1.
        unfold upload_from_file, request. rewrite Hup. reflexivity.
      * right; right. eexists. eapply submitted_file; eauto.
    + left. exists (text_response (lit "Invalid file type") 400).
      split; [reflexivity|].
      unfold transcribe, prepare_input. rewrite Hf, Ha, andb_false_r.
      reflexivity.
  - destruct (given_url (form_url req)) as [u|] eqn:Hu.
    + right; right. exists u. apply submitted_url; auto.
    + left. exists (text_response (lit "No URL or file provided") 400).
      split; [reflexivity|].
      unfold transcribe. rewrite Hf, Hu. reflexivity.
Qed.

End Transcribe.

(** ** Job submission: the claims about accepted submissions *)

Lemma item_value_input_path (env : Env) (input tid : str) :
  item_value (lit "gcs-input-path") (metadata_body env input tid)
  = Some (Some input).
Proof. reflexivity. Qed.

(** C1.  When [POST /transcribe] answers 200, exactly one metadata-set
    request and exactly one start request were sent, and the item
    [gcs-input-path] of the metadata-set request is the URI
    [gs://<bucket>/<job-id>/<sanitized-filename>] of the object just
    uploaded when a file was given, and the submitted URL as it came
    otherwise. *)
Theorem transcribe_success_calls (U : Unicode) (env : Env) (req : Request)
    (b b' : Bucket) (r : Response) (t : list Call) :
  transcribe U env req b = (Return r, b', t) ->
  status r = 200 ->
  exists fp items input,
    filter is_set_metadata t =
      [CallSetMetadata (GCP_PROJECT_ID env) GCE_ZONE GCE_INSTANCE_NAME fp items] /\
    filter is_start t =
      [CallStart (GCP_PROJECT_ID env) GCE_ZONE GCE_INSTANCE_NAME] /\
    item_value (lit "gcs-input-path") items = Some (Some input) /\
    match given_file (files_file req) with
    | Some f =>
        input = uploaded_object_uri U env req f /\
        filter is_upload t =
          [CallUpload (uploaded_object_path U env req f) (stream f) (content_type f)] /\
        bucket_get (uploaded_object_path U env req f) b' = Some (stored_blob f)
    | None => form_url req = Some input
    end.
Proof.
  intros Hrun Hst.
  destruct (transcribe_cases U env req b)
    as [[r0 [H400 E]] | [[e [t0 E]] | [input Hsub]]].
  - rewrite E in Hrun. inversion Hrun; subst. rewrite H400 in Hst. discriminate.
  - rewrite E in Hrun. discriminate.
  - destruct (start_worker_cases env input
                (transcription_id U env (form_url req) (files_file req))
                (fst (after_upload U env req b)))
      as [(md & fp & Hg & Hm & Hf & Hs & Hstart) | [e He]].
    2:{ destruct (transcribe_fails U env req b input e Hsub He) as [t0 [E _]].
        rewrite E in Hrun. inversion Hrun; subst. discriminate. }
    rewrite (transcribe_initiates U env req b input md fp Hsub Hg Hm Hf Hs Hstart)
      in Hrun.
    inversion Hrun; subst r b' t; clear Hrun Hst.
    exists fp,
      (metadata_body env input
         (transcription_id U env (form_url req) (files_file req))),
      input.
    unfold after_upload.
    destruct Hsub as [f Hfile Ha Hup | u Hfile Hu]; rewrite Hfile; simpl.
    + repeat split; try reflexivity. apply bucket_get_put.
    + repeat split; try reflexivity.
      unfold given_url, nonempty in Hu.
      destruct (form_url req) as [[|c s]|]; congruence.
Qed.

(** C6.  When the metadata fetch, the metadata update or the start of
    the instance raises [e] in an accepted submission, the answer is a
    500 whose text ends with [str(e)], and the object uploaded just
    before is still in the bucket. *)
Theorem transcribe_vm_failure (U : Unicode) (env : Env) (req : Request)
    (b : Bucket) (input : str) (e : Exn) :
  submitted U env req input ->
  vm_step_raises env input
    (transcription_id U env (form_url req) (files_file req)) e ->
  exists r b' t,
    transcribe U env req b = (Return r, b', t) /\
    status r = 500 /\
    body r = Text (lit "Failed to initiate transcription: " ++ exn_str e) /\
    forall f, given_file (files_file req) = Some f ->
      In (CallUpload (uploaded_object_path U env req f) (stream f)
            (content_type f)) t /\
      bucket_get (uploaded_object_path U env req f) b' = Some (stored_blob f).
Proof.
  intros Hsub He.
  destruct (transcribe_fails U env req b input e Hsub He) as [t [E _]].
  exists (failed_response e). do 2 eexists.
  split; [exact E|]. repeat split.
  - unfold after_upload. rewrite H. simpl. auto.
  - unfold after_upload. rewrite H. simpl. apply bucket_get_put.
Qed.

(** C10.  When a request carries both a non-empty URL and a file with an
    allowed name, the file wins: the base name comes from the sanitized
    file name, the first request sent is the upload of the file, every
    metadata update sent carries the URI of the uploaded object as
    [gcs-input-path], and the run is the one of the same request without
    its URL.  When no service request raises, the object is stored, the
    metadata update and the start are sent, and the answer is 200. *)
Theorem file_takes_precedence (U : Unicode) (env : Env) (req : Request)
    (b : Bucket) (u : str) (f : FileStorage) :
  given_url (form_url req) = Some u ->
  given_file (files_file req) = Some f ->
  allowed_file U (filename f) = true ->
  let path := uploaded_object_path U env req f in
  let uri := uploaded_object_uri U env req f in
  source_base_name U (form_url req) (files_file req)
    = nth 0 (rsplit1 ch_dot (secure_filename U (filename f))) [] /\
  transcribe U env req b
    = transcribe U env {| form_url := None; files_file := files_file req |} b /\
  (exists o b' t,
      transcribe U env req b
      = (o, b', CallUpload path (stream f) (content_type f) :: t) /\
      forall p z i fp items,
        In (CallSetMetadata p z i fp items) t ->
        item_value (lit "gcs-input-path") items = Some (Some uri)) /\
  ((forall c, raises env c = None) ->
   forall md fp,
     metadata (instance_info env) = Some md -> fingerprint md = Some fp ->
     transcribe U env req b
     = (Return (initiated_response
                  (transcription_id U env (form_url req) (files_file req))),
        bucket_put path (stored_blob f) b,
        [CallUpload path (stream f) (content_type f);
         get_call env;
         set_call env fp uri
           (transcription_id U env (form_url req) (files_file req));
         start_call env])).
Proof.
  intros Hu Hf Ha path uri.
  assert (Hbase : forall url,
             source_base_name U url (files_file req)
             = nth 0 (rsplit1 ch_dot (secure_filename U (filename f))) []).
  { intros url. unfold source_base_name. rewrite Hf. reflexivity. }
  split; [apply Hbase|].
  split.
  { unfold transcribe, prepare_input, transcription_id. simpl.
    rewrite Hf, !Hbase. simpl. rewrite !andb_false_r. reflexivity. }
  split.
  - destruct (raises env (CallUpload path (stream f) (content_type f)))
      as [e|] eqn:Hup.
    + exists (Raise e), b, [].
      split; [|intros ? ? ? ? ? []].
      unfold transcribe, prepare_input. rewrite Hf, Ha, andb_false_r.
      cbv beta iota zeta. simpl negb.
      unfold path, uploaded_object_path in Hup.
      unfold bind at 1. unfold bind at 1.
      unfold upload_from_file, request. rewrite Hup. reflexivity.
    + assert (Hsub : submitted U env req uri)
        by (eapply submitted_file; eauto).
      assert (Hset : forall t, Forall (worker_call env uri
                 (transcription_id U env (form_url req) (files_file req))) t ->
               forall p z i fp items,
                 In (CallSetMetadata p z i fp items) t ->
                 item_value (lit "gcs-input-path") items = Some (Some uri)).
      { intros t Ht p z i fp items Hin.
        rewrite Forall_forall in Ht. specialize (Ht _ Hin).
        destruct Ht as [H | [[fp' H] | H]]; try discriminate.
        inversion H; subst. apply item_value_input_path. }
      destruct (start_worker_cases env uri
                  (transcription_id U env (form_url req) (files_file req))
                  (fst (after_upload U env req b)))
        as [(md & fp & Hg & Hm & Hfp & Hs & Hstart) | [e He]].
      * rewrite (transcribe_initiates U env req b uri md fp Hsub Hg Hm Hfp Hs Hstart).
        unfold after_upload. rewrite Hf. simpl.
        do 3 eexists. split; [reflexivity|].
        apply Hset.
        apply Forall_cons; [left; reflexivity|].
        apply Forall_cons; [right; left; exists fp; reflexivity|].
        apply Forall_cons; [right; right; reflexivity|].
        apply Forall_nil.
      * destruct (transcribe_fails U env req b uri e Hsub He) as [t [E Ht]].
        rewrite E. unfold after_upload. rewrite Hf. simpl.
        do 3 eexists. split; [reflexivity|]. apply Hset, Ht.
  - intros Hnone md fp Hm Hfp.
    assert (Hsub : submitted U env req uri)
      by (eapply submitted_file; eauto).
    rewrite (transcribe_initiates U env req b uri md fp Hsub); auto.
    unfold after_upload. rewrite Hf. reflexivity.
Qed.

(** ** The job identifier *)

Lemma is_digit_no_separator (c : char) :
  is_digit c = true -> c <> ch_slash /\ c <> ch_backslash.
Proof.
  unfold is_digit, ch_slash, ch_backslash.
  rewrite andb_true_iff, !N.leb_le. lia.
Qed.

Lemma strftime_no_separator (d : DateTime) : no_path_separator (strftime d).
Proof.
  unfold no_path_separator, strftime, pad4, pad2. simpl.
  repeat (apply Forall_cons; [
    first [ apply is_digit_no_separator, digit_is_digit
          | unfold ch_hyphen, ch_slash, ch_backslash; lia ] |]).
  apply Forall_nil.
Qed.

(** C4.  For an accepted file upload (a given file with an allowed name)
    the job identifier is the sanitized file name without its extension,
    followed by an underscore and the timestamp [YYYYMMDD-HHMMSS] of the
    clock; it contains neither a slash nor a backslash. *)
Theorem job_identifier_form (U : Unicode) (env : Env)
    (url : option str) (file : option FileStorage) (f : FileStorage) :
  given_file file = Some f ->
  allowed_file U (filename f) = true ->
  exists base ts,
    extension_stripped (secure_filename U (filename f)) base /\
    ts = strftime (now env) /\
    is_timestamp ts = true /\
    transcription_id U env url file = base ++ lit "_" ++ ts /\
    no_path_separator (transcription_id U env url file).
Proof.
  intros Hf _.
  exists (nth 0 (rsplit1 ch_dot (secure_filename U (filename f))) []),
    (strftime (now env)).
  pose proof (rsplit1_head (secure_filename U (filename f))) as Hbase.
  assert (Hid : transcription_id U env url file
                = nth 0 (rsplit1 ch_dot (secure_filename U (filename f))) []
                  ++ lit "_" ++ strftime (now env)).
  { unfold transcription_id, source_base_name. rewrite Hf. reflexivity. }
  repeat split; auto using strftime_is_timestamp.
  rewrite Hid. unfold no_path_separator.
  apply Forall_app; split; [|apply Forall_app; split].
  - eapply Forall_impl; [apply is_safe_no_separator|].
    eapply extension_stripped_Forall; [exact Hbase|].
    apply secure_filename_safe.
  - repeat constructor; unfold ch_slash, ch_backslash; simpl; lia.
  - apply strftime_no_separator.
Qed.

(** ** The base name of a URL job *)

Lemma re_sub_scheme_from_skip (k : nat) (s : str) :
  re_sub_scheme_from k s = re_sub_scheme_from 0 (skipn k s).
Proof.
  revert k; induction s as [|c t IH]; intros [|k]; try reflexivity.
  cbn [re_sub_scheme_from skipn]. apply IH.
Qed.

Lemma re_sub_scheme_removed_bounded (n : nat) :
  forall s, (List.length s <= n)%nat ->
            schemes_removed s (re_sub_scheme_from 0 s).
Proof.
  induction n as [|n IH]; intros s Hlen.
  - destruct s; [constructor | simpl in Hlen; lia].
  - destruct s as [|c t]; [constructor|].
    cbn [re_sub_scheme_from]. unfold scheme_match.
    destruct (startswith (lit "http://") (c :: t)) eqn:E1;
      [|destruct (startswith (lit "https://") (c :: t)) eqn:E2].
    + pose proof (startswith_split _ _ E1) as Hs.
      change (List.length (lit "http://")) with 7%nat in Hs.
      rewrite re_sub_scheme_from_skip.
      change (skipn (Nat.pred 7) t) with (skipn 7 (c :: t)).
      rewrite Hs at 1. apply sr_http, IH.
      rewrite length_skipn. simpl in Hlen |- *. lia.
    + pose proof (startswith_split _ _ E2) as Hs.
      change (List.length (lit "https://")) with 8%nat in Hs.
      rewrite re_sub_scheme_from_skip.
      change (skipn (Nat.pred 8) t) with (skipn 8 (c :: t)).
      rewrite Hs at 1. apply sr_https, IH.
      rewrite length_skipn. simpl in Hlen |- *. lia.
    + apply sr_keep; auto. apply IH. simpl in Hlen. lia.
Qed.

(** [re.sub(r'https?://', '', url)] deletes every occurrence. *)
Lemma re_sub_scheme_removed (url : str) :
  schemes_removed url (re_sub_scheme url).
Proof.
  apply (re_sub_scheme_removed_bounded (List.length url)). lia.
Qed.

Lemma re_sub_unsafe_safe (s : str) :
  Forall (fun c => is_safe c = true) (re_sub_unsafe s).
Proof.
  unfold re_sub_unsafe. apply Forall_forall. intros c Hc.
  apply in_map_iff in Hc. destruct Hc as [x [<- _]].
  destruct (is_safe x) eqn:E; auto.
Qed.

(** C3, as stated, fails: a dot or a hyphen of the URL is kept, where the
    claim has it replaced by an underscore. *)
Lemma url_base_name_keeps_dot_and_hyphen :
  let url := lit "https://example.com/a-b" in
  source_base_name ascii_unicode (Some url) None = lit "example.com_a-b" /\
  claimed_url_base_name url = lit "example_com_a_b" /\
  source_base_name ascii_unicode (Some url) None <> claimed_url_base_name url.
Proof.
  vm_compute. repeat split; discriminate.
Qed.

(** C3, amended.  For a URL-only submission the base name is the URL
    with every occurrence of [http://] and [https://] deleted, every
    character outside [[a-zA-Z0-9_.-]] replaced by an underscore, cut to
    its first 50 characters. *)
Theorem url_base_name (U : Unicode) (url : option str)
    (file : option FileStorage) (u : str) :
  given_file file = None ->
  given_url url = Some u ->
  exists stripped,
    schemes_removed u stripped /\
    source_base_name U url file
      = firstn 50 (map (fun c => if is_safe c then c else ch_underscore) stripped) /\
    (List.length (source_base_name U url file) <= 50)%nat /\
    Forall (fun c => is_safe c = true) (source_base_name U url file).
Proof.
  intros Hf Hu. exists (re_sub_scheme u).
  assert (E : source_base_name U url file
              = firstn 50 (re_sub_unsafe (re_sub_scheme u))).
  { unfold source_base_name. rewrite Hf, Hu. reflexivity. }
  split; [apply re_sub_scheme_removed|].
  split; [exact E|].
  rewrite E. split.
  - apply firstn_le_length.
  - pose proof (re_sub_unsafe_safe (re_sub_scheme u)) as H.
    rewrite <- (firstn_skipn 50) in H. apply Forall_app in H. tauto.
Qed.

(** ** The size of an uploaded file *)

(** The handler never looks at the size of the stream: whatever the
    bytes of [talk.mp3] are, they are stored and the job is started. *)
Lemma transcribe_any_size (data : list Byte.byte) :
  let f := sample_file "talk.mp3" data in
  transcribe ascii_unicode sample_env
    {| form_url := None; files_file := Some f |} []
  = (Return (initiated_response (lit "talk_20260207-090530")),
     [(lit "talk_20260207-090530/talk.mp3", stored_blob f)],
     [CallUpload (lit "talk_20260207-090530/talk.mp3") data (Some (lit "audio/mpeg"));
      get_call sample_env;
      set_call sample_env (lit "fp0")
        (lit "gs://shaw-transcripts-20260207/talk_20260207-090530/talk.mp3")
        (lit "talk_20260207-090530");
      start_call sample_env]).
Proof. vm_compute. reflexivity. Qed.

(** C2 does not hold of the handler: a file of 16 MiB + 1 bytes with an
    allowed name is accepted, uploaded in full and handed to the
    worker. *)
Theorem transcribe_accepts_oversized_file :
  let data := repeat Byte.x00 (N.to_nat (MAX_UPLOAD_BYTES + 1)) in
  let f := sample_file "talk.mp3" data in
  MAX_UPLOAD_BYTES < N.of_nat (List.length (stream f)) /\
  exists r b' t,
    transcribe ascii_unicode sample_env
      {| form_url := None; files_file := Some f |} [] = (Return r, b', t) /\
    status r = 200 /\
    bucket_get (lit "talk_20260207-090530/talk.mp3") b' = Some (stored_blob f) /\
    In (CallUpload (lit "talk_20260207-090530/talk.mp3") data (content_type f)) t.
Proof.
  intros data f. split.
  - unfold f, data, sample_file, stream.
    rewrite repeat_length, N2Nat.id. reflexivity.
  - do 3 eexists. split; [apply (transcribe_any_size data)|].
    split; [reflexivity|]. split.
    + apply (bucket_get_put _ _ []).
    + left. reflexivity.
Qed.

(** ** Listing: sorting *)

Lemma insert_desc_perm (x : str * str) (l : list (str * str)) :
  Permutation (x :: l) (insert_desc x l).
Proof.
  induction l as [|y t IH]; simpl; auto.
  destruct (str_leb (fst y) (fst x)); auto.
  eapply perm_trans; [apply perm_swap | apply perm_skip, IH].
Qed.

Lemma sort_by_name_reverse_perm (l : list (str * str)) :
  Permutation l (sort_by_name_reverse l).
Proof.
  induction l as [|x t IH]; simpl; auto.
  eapply perm_trans; [apply perm_skip, IH | apply insert_desc_perm].
Qed.

Lemma insert_desc_sorted (x : str * str) (l : list (str * str)) :
  StronglySorted name_geb l -> StronglySorted name_geb (insert_desc x l).
Proof.
  induction 1 as [|y t Hs IH Hall]; simpl.
  - constructor; constructor.
  - destruct (str_leb (fst y) (fst x)) eqn:E.
    + constructor; [constructor; auto|].
      constructor; [exact E|].
      eapply Forall_impl; [|exact Hall].
      intros z Hz. unfold name_geb in *. eapply str_leb_trans; eauto.
    + constructor; auto.
      eapply Permutation_Forall; [apply insert_desc_perm|].
      constructor; auto.
      unfold name_geb. apply str_leb_total; auto.
Qed.

Lemma sort_by_name_reverse_sorted (l : list (str * str)) :
  StronglySorted name_geb (sort_by_name_reverse l).
Proof.
  induction l as [|x t IH]; simpl.
  - constructor.
  - apply insert_desc_sorted, IH.
Qed.

Lemma sorted_distinct_strict (l : list (str * str)) :
  StronglySorted name_geb l -> NoDup (map fst l) ->
  StronglySorted name_gtb l.
Proof.
  induction 1 as [|x t Hs IH Hall]; simpl; intros Hnd.
  - constructor.
  - inversion Hnd as [|? ? Hnotin Hnd']; subst.
    constructor; auto.
    apply Forall_forall. intros y Hy.
    rewrite Forall_forall in Hall. specialize (Hall y Hy).
    unfold name_geb, name_gtb, str_leb, str_ltb in *.
    destruct (str_compare (fst y) (fst x)) eqn:E; auto; try discriminate.
    apply str_compare_eq in E. exfalso. apply Hnotin.
    rewrite <- E. apply in_map; auto.
Qed.

(** ** Listing: prefixes and first matches *)

Lemma mem_str_In (s : str) (l : list str) : mem_str s l = true <-> In s l.
Proof.
  induction l as [|x t IH]; simpl.
  - split; [discriminate | tauto].
  - rewrite orb_true_iff, IH, str_eqb_eq. tauto.
Qed.

Lemma first_level_prefix_some (name p : str) :
  first_level_prefix name = Some p ->
  exists folder rest,
    p = folder ++ [ch_slash] /\ name = folder ++ ch_slash :: rest /\
    contains ch_slash folder = false.
Proof.
  revert p; induction name as [|c t IH]; simpl; intros p; try discriminate.
  destruct (N.eqb_spec c ch_slash) as [->|Hne].
  - intros H; inversion H; subst. exists [], t. auto.
  - destruct (first_level_prefix t) as [q|]; try discriminate.
    simpl. intros H; inversion H; subst.
    destruct (IH q eq_refl) as (folder & rest & -> & -> & Hc).
    exists (c :: folder), rest. repeat split; auto.
    apply contains_false. apply contains_false in Hc.
    intros [H'|H']; [congruence | contradiction].
Qed.

Lemma first_level_prefix_app (folder rest : str) :
  contains ch_slash folder = false ->
  first_level_prefix (folder ++ ch_slash :: rest) = Some (folder ++ [ch_slash]).
Proof.
  induction folder as [|c t IH]; intros Hc.
  - reflexivity.
  - apply contains_false in Hc.
    cbn [app first_level_prefix].
    destruct (N.eqb_spec c ch_slash) as [->|Hne].
    + exfalso. apply Hc. left; reflexivity.
    + rewrite IH; [reflexivity|].
      apply contains_false. intros H. apply Hc. right; exact H.
Qed.

Lemma bucket_prefixes_from_In (b : Bucket) :
  forall seen p,
    In p (bucket_prefixes_from seen b) <->
    (~ In p seen /\
     exists n blob, In (n, blob) b /\ first_level_prefix n = Some p).
Proof.
  induction b as [|[n x] rest IH]; intros seen p; simpl.
  - split; [tauto | intros [_ (? & ? & [] & _)]].
  - destruct (first_level_prefix n) as [q|] eqn:E.
    + destruct (mem_str q seen) eqn:Em.
      * apply mem_str_In in Em. rewrite IH. split.
        -- intros [Hs (n' & o & Hin & Hp)]. split; auto. exists n', o. auto.
        -- intros [Hs (n' & o & [Heq | Hin] & Hp)]; split; auto.
           ++ inversion Heq; subst. rewrite E in Hp; inversion Hp; subst.
              contradiction.
           ++ exists n', o. auto.
      * assert (Hq : ~ In q seen).
        { intros H. apply mem_str_In in H. congruence. }
        simpl. rewrite IH. split.
        -- intros [<- | [Hs (n' & o & Hin & Hp)]].
           ++ split; auto. exists n, x. auto.
           ++ split; [simpl in Hs; tauto|]. exists n', o. auto.
        -- intros [Hs (n' & o & [Heq | Hin] & Hp)].
           ++ inversion Heq; subst. rewrite E in Hp; inversion Hp; auto.
           ++ destruct (str_eqb q p) eqn:Eqp.
              ** apply str_eqb_eq in Eqp; auto.
              ** apply str_eqb_neq in Eqp. right. split.
                 { simpl. tauto. }
                 exists n', o. auto.
    + rewrite IH. split.
      * intros [Hs (n' & o & Hin & Hp)]. split; auto. exists n', o. auto.
      * intros [Hs (n' & o & [Heq | Hin] & Hp)]; split; auto.
        -- inversion Heq; subst. congruence.
        -- exists n', o. auto.
Qed.

Lemma bucket_prefixes_from_NoDup (b : Bucket) :
  forall seen, NoDup (bucket_prefixes_from seen b).
Proof.
  induction b as [|[n x] rest IH]; intros seen; simpl.
  - constructor.
  - destruct (first_level_prefix n) as [q|]; auto.
    destruct (mem_str q seen); auto.
    constructor; auto.
    rewrite bucket_prefixes_from_In. simpl. tauto.
Qed.

Lemma find_first_match {A} (p : A -> bool) (l : list A) (x : A) :
  find p l = Some x <-> first_match p l x.
Proof.
  unfold first_match. split.
  - induction l as [|a t IH]; simpl; try discriminate.
    destruct (p a) eqn:E.
    + intros H; inversion H; subst. exists [], t. auto.
    + intros H. destruct (IH H) as (l1 & l2 & -> & Hx & Hall).
      exists (a :: l1), l2. auto.
  - intros (l1 & l2 & -> & Hx & Hall).
    induction Hall as [|a l1 Ha Hall IH]; simpl.
    + rewrite Hx; reflexivity.
    + rewrite Ha; exact IH.
Qed.

Lemma find_filter {A} (q r : A -> bool) (l : list A) :
  find q (filter r l) = find (fun x => r x && q x) l.
Proof.
  induction l as [|a t IH]; simpl; auto.
  destruct (r a); simpl; auto.
  destruct (q a); auto.
Qed.

(** ** Listing: the handler *)

Section Listing.
Context (env : Env).
Hypothesis listing_answers : forall prefix, raises env (CallListBlobs prefix) = None.

Lemma collect_transcriptions_run (b : Bucket) (prefixes : list str) :
  forall acc,
    collect_transcriptions env prefixes acc b
    = (Return (acc ++ found_in env b prefixes), b, map CallListBlobs prefixes).
Proof.
  induction prefixes as [|prefix rest IH]; intros acc.
  - simpl. rewrite app_nil_r. reflexivity.
  - cbn [collect_transcriptions found_in flat_map map].
    unfold bind at 1. unfold list_blobs, request.
    rewrite listing_answers.
    destruct (find _ (bucket_under prefix b)) as [o|];
      rewrite IH; unfold found_in.
    + rewrite <- app_assoc. reflexivity.
    + reflexivity.
Qed.

(** An entry is found for a prefix exactly when the folder has a first
    object ending in [.txt]. *)
Lemma found_in_spec (b : Bucket) (prefixes : list str) (folder url : str) :
  (forall p, In p prefixes ->
     exists fld, p = fld ++ [ch_slash]) ->
  In (folder, url) (found_in env b prefixes) <->
  In (folder ++ [ch_slash]) prefixes /\
  exists o, first_match (txt_in_folder folder) b o /\
            url = url_for_download_file env (fst o).
Proof.
  intros Hshape. unfold found_in. rewrite in_flat_map. split.
  - intros (p & Hp & Hin).
    destruct (Hshape p Hp) as [fld ->].
    unfold bucket_under in Hin. rewrite find_filter in Hin.
    destruct (find _ b) as [o|] eqn:E; [|destruct Hin].
    destruct Hin as [Heq|[]]. unfold drop_last in Heq.
    rewrite removelast_last in Heq. inversion Heq; subst.
    split; auto. exists o. split; auto.
    apply find_first_match. exact E.
  - intros (Hp & o & Hfirst & ->).
    exists (folder ++ [ch_slash]). split; auto.
    unfold bucket_under. rewrite find_filter.
    apply find_first_match in Hfirst. unfold txt_in_folder in Hfirst.
    rewrite Hfirst. unfold drop_last. rewrite removelast_last.
    left; reflexivity.
Qed.

Lemma found_in_names (b : Bucket) (prefixes : list str) :
  (forall p, In p prefixes -> exists fld, p = fld ++ [ch_slash]) ->
  NoDup prefixes ->
  NoDup (map fst (found_in env b prefixes)).
Proof.
  induction prefixes as [|p rest IH]; intros Hshape Hnd; simpl.
  - constructor.
  - inversion Hnd as [|? ? Hnotin Hnd']; subst.
    assert (Hrest : forall q, In q rest -> exists fld, q = fld ++ [ch_slash])
      by (intros q Hq; apply Hshape; right; exact Hq).
    specialize (IH Hrest Hnd').
    destruct (find _ (bucket_under p b)) as [o|]; simpl; auto.
    constructor; auto.
    intros Hin. apply in_map_iff in Hin.
    destruct Hin as [[fld url] [Hfst Hin]]. simpl in Hfst. subst fld.
    apply (found_in_spec b rest _ url Hrest) in Hin.
    destruct Hin as [Hin _].
    destruct (Hshape p (or_introl eq_refl)) as [fld ->].
    unfold drop_last in Hin. rewrite removelast_last in Hin. contradiction.
Qed.

End Listing.

Lemma bucket_prefixes_shape (b : Bucket) (p : str) :
  In p (bucket_prefixes b) -> exists fld, p = fld ++ [ch_slash].
Proof.
  unfold bucket_prefixes. rewrite bucket_prefixes_from_In.
  intros [_ (n & o & _ & Hp)].
  destruct (first_level_prefix_some _ _ Hp) as (fld & rest & -> & _ & _).
  exists fld; reflexivity.
Qed.

(** A folder is reported by the delimiter listing exactly when it is a
    first-level one. *)
Lemma bucket_prefixes_folder (b : Bucket) (folder : str) (o : str * Blob) :
  first_match (txt_in_folder folder) b o ->
  (In (folder ++ [ch_slash]) (bucket_prefixes b)
   <-> contains ch_slash folder = false).
Proof.
  intros (l1 & l2 & -> & Ho & _).
  unfold txt_in_folder in Ho. apply andb_true_iff in Ho. destruct Ho as [Hs _].
  apply startswith_split in Hs.
  unfold bucket_prefixes. rewrite bucket_prefixes_from_In. split.
  - intros [_ (n & x & _ & Hp)].
    destruct (first_level_prefix_some _ _ Hp) as (fld & rest & Heq & _ & Hc).
    apply app_inj_tail in Heq. destruct Heq as [-> _]. exact Hc.
  - intros Hc. split; [tauto|].
    exists (fst o), (snd o). split.
    + apply in_or_app. right. left. destruct o; reflexivity.
    + rewrite Hs. rewrite <- app_assoc. simpl.
      apply first_level_prefix_app. exact Hc.
Qed.

(** C5.  When the store answers the listing requests, [GET
    /transcriptions] returns, in strictly descending order of name, one
    entry for each first-level folder holding an object whose name ends
    in [.txt], with the download link of the first such object in
    listing order, and no entry for any other folder. *)
Theorem list_transcriptions_entries (env : Env) (b : Bucket) :
  raises env CallListPrefixes = None ->
  (forall prefix, raises env (CallListBlobs prefix) = None) ->
  exists entries t,
    list_transcriptions env b
      = (Return (json_response (JsonList entries) 200), b, t) /\
    StronglySorted name_gtb entries /\
    forall folder url,
      In (folder, url) entries <->
      contains ch_slash folder = false /\
      exists o, first_match (txt_in_folder folder) b o /\
                url = url_for_download_file env (fst o).
Proof.
  intros Hp Hl.
  exists (sort_by_name_reverse (found_in env b (bucket_prefixes b))).
  exists (CallListPrefixes :: map CallListBlobs (bucket_prefixes b)).
  split; [|split].
  - unfold list_transcriptions, try_except, bind, list_prefixes, request.
    rewrite Hp. rewrite (collect_transcriptions_run env Hl).
    unfold ret. cbn [app]. rewrite app_nil_r. reflexivity.
  - apply sorted_distinct_strict.
    + apply sort_by_name_reverse_sorted.
    + eapply Permutation_NoDup.
      * apply Permutation_map, sort_by_name_reverse_perm.
      * apply found_in_names.
        -- apply bucket_prefixes_shape.
        -- apply bucket_prefixes_from_NoDup.
  - intros folder url.
    assert (Hperm := sort_by_name_reverse_perm (found_in env b (bucket_prefixes b))).
    split.
    + intros Hin.
      apply (Permutation_in _ (Permutation_sym Hperm)) in Hin.
      apply found_in_spec in Hin; [|apply bucket_prefixes_shape].
      destruct Hin as [Hpre (o & Hfirst & ->)].
      split; [|exists o; auto].
      apply (bucket_prefixes_folder b folder o Hfirst). exact Hpre.
    + intros [Hc (o & Hfirst & ->)].
      apply (Permutation_in _ Hperm).
      apply found_in_spec; [apply bucket_prefixes_shape|].
      split; [|exists o; auto].
      apply (bucket_prefixes_folder b folder o Hfirst). exact Hc.
Qed.

(** ** Download *)

Lemma bucket_get_none (path : str) (b : Bucket) :
  bucket_get path b = None <-> forall o, ~ In (path, o) b.
Proof.
  induction b as [|[n x] rest IH]; simpl.
  - split; auto.
  - destruct (str_eqb n path) eqn:E.
    + apply str_eqb_eq in E; subst. split; [discriminate|].
      intros H. exfalso. apply (H x). left; reflexivity.
    + apply str_eqb_neq in E. rewrite IH. split.
      * intros H o [Heq | Hin]; [inversion Heq; congruence | apply (H o Hin)].
      * intros H o Hin. apply (H o). right; exact Hin.
Qed.

(** C7.  When the store answers the two requests, [GET /download/<path>]
    returns 404 if the bucket has no object at [path]; otherwise it
    returns the bytes of the stored object unchanged, under the stored
    content type, or under [application/octet-stream] when none (or an
    empty one) is stored. *)
Theorem download_file_result (env : Env) (path : str) (b : Bucket) :
  raises env (CallExists path) = None ->
  raises env (CallDownload path) = None ->
  exists r t,
    download_file env path b = (Return r, b, t) /\
    match bucket_get path b with
    | None => (forall o, ~ In (path, o) b) /\ status r = 404
    | Some o =>
        status r = 200 /\
        body r = Bytes (blob_data o) /\
        mimetype r = match nonempty (blob_content_type o) with
                     | Some ctype => ctype
                     | None => lit "application/octet-stream"
                     end
    end.
Proof.
  intros He Hd.
  unfold download_file, try_except, bind, blob_exists, download_as_bytes,
    request, bucket_blob. simpl.
  rewrite He.
  destruct (bucket_get path b) as [o|] eqn:E; simpl.
  - rewrite Hd, E. simpl. do 2 eexists. split; [reflexivity|].
    simpl. auto.
  - do 2 eexists. split; [reflexivity|]. split; [|reflexivity].
    apply bucket_get_none. exact E.
Qed.

(** * The theorems at sample requests *)

Lemma transcribe_without_input_witness :
  given_url (form_url empty_request) = None /\
  given_file (files_file empty_request) = None /\
  transcribe ascii_unicode sample_env empty_request sample_bucket
  = (Return (text_response (lit "No URL or file provided") 400), sample_bucket, []).
Proof.
  split; [reflexivity|]. split; [reflexivity|].
  apply (transcribe_without_input ascii_unicode sample_env empty_request
           sample_bucket); reflexivity.
Defined.

Lemma transcribe_invalid_file_type_witness :
  let f := sample_file "setup.exe" [Byte.x4d; Byte.x5a] in
  given_file (files_file exe_request) = Some f /\
  allowed_file ascii_unicode (filename f) = false /\
  transcribe ascii_unicode sample_env exe_request sample_bucket
  = (Return (text_response (lit "Invalid file type") 400), sample_bucket, []).
Proof.
  intros f. split; [reflexivity|]. split; [reflexivity|].
  apply (transcribe_invalid_file_type ascii_unicode sample_env exe_request f
           sample_bucket); reflexivity.
Defined.

Lemma transcribe_success_calls_witness :
  let r := initiated_response (lit "talk_20260207-090530") in
  let path := lit "talk_20260207-090530/talk.mp3" in
  let b' := [(path, stored_blob sample_upload)] in
  let t := [CallUpload path (stream sample_upload) (content_type sample_upload);
            get_call sample_env;
            set_call sample_env (lit "fp0")
              (lit "gs://shaw-transcripts-20260207/talk_20260207-090530/talk.mp3")
              (lit "talk_20260207-090530");
            start_call sample_env] in
  transcribe ascii_unicode sample_env file_request [] = (Return r, b', t) /\
  status r = 200 /\
  exists fp items input,
    filter is_set_metadata t =
      [CallSetMetadata (GCP_PROJECT_ID sample_env) GCE_ZONE GCE_INSTANCE_NAME fp items] /\
    filter is_start t =
      [CallStart (GCP_PROJECT_ID sample_env) GCE_ZONE GCE_INSTANCE_NAME] /\
    item_value (lit "gcs-input-path") items = Some (Some input) /\
    match given_file (files_file file_request) with
    | Some f =>
        input = uploaded_object_uri ascii_unicode sample_env file_request f /\
        filter is_upload t =
          [CallUpload (uploaded_object_path ascii_unicode sample_env file_request f)
             (stream f) (content_type f)] /\
        bucket_get (uploaded_object_path ascii_unicode sample_env file_request f) b'
          = Some (stored_blob f)
    | None => form_url file_request = Some input
    end.
Proof.
  intros r path b' t.
  assert (Hrun : transcribe ascii_unicode sample_env file_request []
                 = (Return r, b', t)) by (vm_compute; reflexivity).
  assert (Hst : status r = 200) by reflexivity.
  split; [exact Hrun|]. split; [exact Hst|].
  exact (transcribe_success_calls ascii_unicode sample_env file_request
           [] b' r t Hrun Hst).
Defined.

Lemma transcribe_vm_failure_witness :
  let input := uploaded_object_uri ascii_unicode failing_start_env file_request
                 sample_upload in
  let e := ApiError (lit "quota exceeded") in
  submitted ascii_unicode failing_start_env file_request input /\
  vm_step_raises failing_start_env input
    (transcription_id ascii_unicode failing_start_env
       (form_url file_request) (files_file file_request)) e /\
  exists r b' t,
    transcribe ascii_unicode failing_start_env file_request [] = (Return r, b', t) /\
    status r = 500 /\
    body r = Text (lit "Failed to initiate transcription: " ++ exn_str e) /\
    forall f, given_file (files_file file_request) = Some f ->
      In (CallUpload (uploaded_object_path ascii_unicode failing_start_env
                        file_request f) (stream f) (content_type f)) t /\
      bucket_get (uploaded_object_path ascii_unicode failing_start_env
                    file_request f) b' = Some (stored_blob f).
Proof.
  intros input e.
  assert (Hsub : submitted ascii_unicode failing_start_env file_request input)
    by (apply (submitted_file ascii_unicode failing_start_env file_request
                 sample_upload); reflexivity).
  assert (He : vm_step_raises failing_start_env input
                 (transcription_id ascii_unicode failing_start_env
                    (form_url file_request) (files_file file_request)) e)
    by (apply (raised_by_start failing_start_env _ _ _
                 {| fingerprint := Some (lit "fp0") |} (lit "fp0"));
        reflexivity).
  split; [exact Hsub|]. split; [exact He|].
  exact (transcribe_vm_failure ascii_unicode failing_start_env file_request
           [] input e Hsub He).
Defined.

Lemma file_takes_precedence_witness :
  given_url (form_url file_and_url_request) = Some sample_url /\
  given_file (files_file file_and_url_request) = Some sample_upload /\
  allowed_file ascii_unicode (filename sample_upload) = true /\
  source_base_name ascii_unicode (form_url file_and_url_request)
    (files_file file_and_url_request) = lit "talk" /\
  transcribe ascii_unicode sample_env file_and_url_request []
  = transcribe ascii_unicode sample_env file_request [].
Proof.
  split; [reflexivity|]. split; [reflexivity|]. split; [reflexivity|].
  destruct (file_takes_precedence ascii_unicode sample_env file_and_url_request
              [] sample_url sample_upload eq_refl eq_refl eq_refl)
    as (Hbase & Hsame & _).
  split; [exact Hbase | exact Hsame].
Defined.

Lemma job_identifier_form_witness :
  given_file (files_file file_request) = Some sample_upload /\
  allowed_file ascii_unicode (filename sample_upload) = true /\
  exists base ts,
    extension_stripped (secure_filename ascii_unicode (filename sample_upload)) base /\
    ts = strftime (now sample_env) /\
    is_timestamp ts = true /\
    transcription_id ascii_unicode sample_env None (files_file file_request)
      = base ++ lit "_" ++ ts /\
    no_path_separator
      (transcription_id ascii_unicode sample_env None (files_file file_request)).
Proof.
  split; [reflexivity|]. split; [reflexivity|].
  apply (job_identifier_form ascii_unicode sample_env None
           (files_file file_request) sample_upload); reflexivity.
Defined.

Lemma url_base_name_witness :
  given_file (files_file url_request) = None /\
  given_url (form_url url_request) = Some sample_url /\
  exists stripped,
    schemes_removed sample_url stripped /\
    source_base_name ascii_unicode (form_url url_request) (files_file url_request)
      = firstn 50 (map (fun c => if is_safe c then c else ch_underscore) stripped) /\
    (List.length (source_base_name ascii_unicode (form_url url_request)
                    (files_file url_request)) <= 50)%nat /\
    Forall (fun c => is_safe c = true)
      (source_base_name ascii_unicode (form_url url_request) (files_file url_request)).
Proof.
  split; [reflexivity|]. split; [reflexivity|].
  apply (url_base_name ascii_unicode (form_url url_request)
           (files_file url_request) sample_url); reflexivity.
Defined.

Lemma list_transcriptions_entries_witness :
  raises sample_env CallListPrefixes = None /\
  (forall prefix, raises sample_env (CallListBlobs prefix) = None) /\
  exists entries t,
    list_transcriptions sample_env sample_bucket
      = (Return (json_response (JsonList entries) 200), sample_bucket, t) /\
    StronglySorted name_gtb entries /\
    forall folder url,
      In (folder, url) entries <->
      contains ch_slash folder = false /\
      exists o, first_match (txt_in_folder folder) sample_bucket o /\
                url = url_for_download_file sample_env (fst o).
Proof.
  split; [reflexivity|]. split; [intros prefix; reflexivity|].
  apply (list_transcriptions_entries sample_env sample_bucket).
  - reflexivity.
  - intros prefix; reflexivity.
Defined.

Lemma download_file_result_witness :
  let path := lit "b_20240102-000000/result.txt" in
  raises sample_env (CallExists path) = None /\
  raises sample_env (CallDownload path) = None /\
  exists r t,
    download_file sample_env path sample_bucket = (Return r, sample_bucket, t) /\
    match bucket_get path sample_bucket with
    | None => (forall o, ~ In (path, o) sample_bucket) /\ status r = 404
    | Some o =>
        status r = 200 /\
        body r = Bytes (blob_data o) /\
        mimetype r = match nonempty (blob_content_type o) with
                     | Some ctype => ctype
                     | None => lit "application/octet-stream"
                     end
    end.
Proof.
  intros path. split; [reflexivity|]. split; [reflexivity|].
  apply (download_file_result sample_env path sample_bucket); reflexivity.
Defined.

(** * Sample runs *)

Example secure_filename_samples :
  secure_filename ascii_unicode (lit "My cool movie.MP4") = lit "My_cool_movie.MP4" /\
  secure_filename ascii_unicode (lit "../../../etc/passwd") = lit "etc_passwd" /\
  secure_filename ascii_unicode (lit "..mp3") = lit "mp3".
Proof. vm_compute. auto. Qed.

Example allowed_file_samples :
  allowed_file ascii_unicode (lit "a.b.MP3") = true /\
  allowed_file ascii_unicode (lit "setup.exe") = false /\
  allowed_file ascii_unicode (lit "README") = false.
Proof. vm_compute. auto. Qed.

Example re_sub_scheme_samples :
  re_sub_scheme (lit "http://a/https://b") = lit "a/b" /\
  re_sub_scheme (lit "ftp://host/x") = lit "ftp://host/x" /\
  re_sub_scheme (lit "HTTP://host") = lit "HTTP://host".
Proof. vm_compute. auto. Qed.

Example transcribe_url_sample :
  transcribe ascii_unicode sample_env url_request sample_bucket
  = (Return (initiated_response (lit "example.com_a-b_20260207-090530")),
     sample_bucket,
     [get_call sample_env;
      set_call sample_env (lit "fp0") sample_url
        (lit "example.com_a-b_20260207-090530");
      start_call sample_env]).
Proof. vm_compute. reflexivity. Qed.

(** A part without a file name is no file: with a URL next to it the
    request is a URL job. *)
Example transcribe_unnamed_part_sample :
  transcribe ascii_unicode sample_env
    {| form_url := Some sample_url; files_file := Some (sample_file "" []) |}
    sample_bucket
  = transcribe ascii_unicode sample_env url_request sample_bucket.
Proof. vm_compute. reflexivity. Qed.

(** The folders of the specification's example: only the one with a text
    file is listed. *)
Example list_transcriptions_sample :
  list_transcriptions sample_env sample_bucket
  = (Return (json_response
               (JsonList
                  [(lit "b_20240102-000000",
                    lit "http://localhost/download/b_20240102-000000/result.txt")])
               200),
     sample_bucket,
     [CallListPrefixes;
      CallListBlobs (lit "a_20240101-000000/");
      CallListBlobs (lit "b_20240102-000000/")]).
Proof. vm_compute. reflexivity. Qed.

Example download_missing_sample :
  download_file sample_env (lit "nothing/here.txt") sample_bucket
  = (Return (text_response (lit "File not found") 404), sample_bucket,
     [CallExists (lit "nothing/here.txt")]).
Proof. vm_compute. reflexivity. Qed.

(** An upload that raises escapes the handler; Flask answers 500. *)
Example upload_failure_sample :
  let env := {| GCP_PROJECT_ID := None; HUGGING_FACE_TOKEN := None;
                now := sample_now;
                raises := fun c => if is_upload c then Some (ApiError (lit "403"))
                                   else None;
                instance_info := {| metadata := None |};
                url_for_download_file := fun p => p |} in
  let run := transcribe ascii_unicode env file_request [] in
  status (flask_response (fst (fst run))) = 500 /\
  snd (fst run) = [] /\
  filter is_set_metadata (snd run) = [].
Proof. vm_compute. auto. Qed.

(** * Further properties of the code *)

(** ** Sanitized file names *)

Lemma dropwhile_split (p : char -> bool) (s : str) :
  exists x, s = x ++ dropwhile p s.
Proof.
  induction s as [|c t [x IH]]; simpl.
  - exists []; reflexivity.
  - destruct (p c).
    + exists (c :: x). simpl. f_equal. exact IH.
    + exists []. reflexivity.
Qed.

Lemma dropwhile_head (p : char -> bool) (s : str) (c : char) (t : str) :
  dropwhile p s = c :: t -> p c = false.
Proof.
  induction s as [|x s IH]; simpl; try discriminate.
  destruct (p x) eqn:E; auto.
  intros H; inversion H; subst; exact E.
Qed.

Lemma dropwhile_fixed (p : char -> bool) (c : char) (t : str) :
  p c = false -> dropwhile p (c :: t) = c :: t.
Proof. intros H; simpl; rewrite H; reflexivity. Qed.

(** [strip] leaves no character of [chars] at either end. *)
Lemma strip_ends (chars s : str) :
  (forall c t, strip chars s = c :: t -> contains c chars = false) /\
  (forall t c, strip chars s = t ++ [c] -> contains c chars = false).
Proof.
  unfold strip.
  set (p := fun c => contains c chars).
  set (a := dropwhile p s).
  split.
  - intros c t Hr.
    destruct (dropwhile_split p (rev a)) as [x Hx].
    apply (f_equal (@rev char)) in Hx.
    rewrite rev_involutive, rev_app_distr, Hr in Hx.
    apply (dropwhile_head p s c (t ++ rev x)). exact Hx.
  - intros t c Hr.
    apply (f_equal (@rev char)) in Hr.
    rewrite rev_involutive, rev_app_distr in Hr. simpl in Hr.
    apply (dropwhile_head p (rev a) c (rev t)). exact Hr.
Qed.

Lemma not_in_dot_underscore (c : char) :
  contains c (lit "._") = false -> c <> ch_dot /\ c <> ch_underscore.
Proof.
  intros H. apply contains_false in H.
  split; intros ->; apply H; simpl; auto.
Qed.

Lemma secure_filename_ends (U : Unicode) (name : str) :
  (forall c t, secure_filename U name = c :: t ->
               c <> ch_dot /\ c <> ch_underscore) /\
  (forall t c, secure_filename U name = t ++ [c] ->
               c <> ch_dot /\ c <> ch_underscore).
Proof.
  split.
  - intros c t H. apply not_in_dot_underscore.
    unfold secure_filename in H.
    eapply (proj1 (strip_ends _ _)). exact H.
  - intros t c H. apply not_in_dot_underscore.
    unfold secure_filename in H.
    eapply (proj2 (strip_ends _ _)). exact H.
Qed.

(** [secure_filename] returns only characters of [[A-Za-z0-9_.-]]
    (so no path separator), and its result neither begins nor ends with
    a dot or an underscore; in particular it is never [.] or [..]. *)
Theorem secure_filename_shape (U : Unicode) (name : str) :
  Forall (fun c => is_safe c = true) (secure_filename U name) /\
  no_path_separator (secure_filename U name) /\
  (forall c t, secure_filename U name = c :: t ->
               c <> ch_dot /\ c <> ch_underscore) /\
  (forall t c, secure_filename U name = t ++ [c] ->
               c <> ch_dot /\ c <> ch_underscore) /\
  secure_filename U name <> lit "." /\
  secure_filename U name <> lit "..".
Proof.
  assert (Hsafe := secure_filename_safe U name).
  destruct (secure_filename_ends U name) as [Hhead Hlast].
  split; [exact Hsafe|].
  split; [eapply Forall_impl; [apply is_safe_no_separator | exact Hsafe]|].
  split; [exact Hhead|].
  split; [exact Hlast|].
  split; intros H; destruct (Hhead _ _ H) as [Hd _]; apply Hd; reflexivity.
Qed.

Lemma filter_all {A} (f : A -> bool) (l : list A) :
  Forall (fun x => f x = true) l -> filter f l = l.
Proof.
  induction 1 as [|x t Hx Ht IH]; simpl; auto.
  rewrite Hx, IH; reflexivity.
Qed.

Lemma is_safe_ascii (c : char) : is_safe c = true -> (c <? 128) = true.
Proof.
  unfold is_safe, is_alnum, is_digit, is_upper, is_lower,
    ch_underscore, ch_dot, ch_hyphen.
  rewrite !orb_true_iff, !andb_true_iff, !N.leb_le, !N.eqb_eq, N.ltb_lt. lia.
Qed.

Lemma is_safe_not_space (c : char) : is_safe c = true -> is_space c = false.
Proof.
  unfold is_safe, is_alnum, is_digit, is_upper, is_lower, is_space,
    ch_underscore, ch_dot, ch_hyphen.
  rewrite !orb_true_iff, !andb_true_iff, !N.leb_le, !N.eqb_eq.
  intros H.
  repeat (apply orb_false_iff; split);
    try (apply andb_false_iff; rewrite !N.leb_gt; lia);
    try (apply N.eqb_neq; lia).
Qed.

Lemma split_ws_from_no_space (s : str) :
  Forall (fun c => is_space c = false) s ->
  forall cur,
    split_ws_from cur s = match rev cur ++ s with [] => [] | w => [w] end.
Proof.
  induction 1 as [|c t Hc Ht IH]; intros cur.
  - simpl. rewrite app_nil_r. destruct cur as [|x cur]; simpl; auto.
    destruct (rev cur); reflexivity.
  - simpl. rewrite Hc, IH. simpl. rewrite <- app_assoc. reflexivity.
Qed.

(** Where NFKD leaves ASCII text alone, sanitizing a sanitized name
    changes nothing. *)
Theorem secure_filename_idempotent (U : Unicode) (name : str) :
  (forall s, Forall (fun c => (c <? 128) = true) s -> normalize_NFKD U s = s) ->
  secure_filename U (secure_filename U name) = secure_filename U name.
Proof.
  intros Hnfkd.
  assert (Hsafe := secure_filename_safe U name).
  assert (Hsep : no_path_separator (secure_filename U name))
    by (eapply Forall_impl; [apply is_safe_no_separator | exact Hsafe]).
  destruct (secure_filename_ends U name) as [Hhead Hlast].
  set (r := secure_filename U name) in *.
  assert (Hascii : Forall (fun c => (c <? 128) = true) r)
    by (eapply Forall_impl; [apply is_safe_ascii | exact Hsafe]).
  unfold secure_filename at 1. cbv zeta. fold r.
  rewrite (Hnfkd r Hascii).
  assert (Hign : ascii_ignore r = r) by (apply filter_all; exact Hascii).
  rewrite Hign.
  assert (Hrep : replace_char ch_slash ch_space r = r).
  { unfold replace_char. rewrite <- (map_id r) at 2.
    apply map_ext_in. intros c Hc.
    unfold no_path_separator in Hsep.
    rewrite Forall_forall in Hsep. destruct (Hsep c Hc) as [Hne _].
    destruct (N.eqb_spec c ch_slash); [contradiction | reflexivity]. }
  rewrite Hrep.
  assert (Hjoin : filename_ascii_strip (join (lit "_") (split_ws r)) = r).
  { unfold split_ws. rewrite split_ws_from_no_space.
    2:{ eapply Forall_impl; [apply is_safe_not_space | exact Hsafe]. }
    simpl rev. simpl app.
    unfold filename_ascii_strip.
    destruct r as [|c t] eqn:Er; [reflexivity|].
    simpl join. apply filter_all. exact Hsafe. }
  rewrite Hjoin.
  unfold strip.
  destruct r as [|c t] eqn:Er; [reflexivity|].
  rewrite dropwhile_fixed.
  2:{ apply contains_false. intros Hin.
      destruct (Hhead c t eq_refl) as [Hd Hu].
      simpl in Hin. unfold ch_dot, ch_underscore in *.
      destruct Hin as [H|[H|[]]]; congruence. }
  destruct (rev (c :: t)) as [|x y] eqn:Erev.
  - apply (f_equal (@rev char)) in Erev. rewrite rev_involutive in Erev.
    discriminate.
  - rewrite dropwhile_fixed.
    + rewrite <- Erev. apply rev_involutive.
    + apply contains_false. intros Hin.
      apply (f_equal (@rev char)) in Erev. rewrite rev_involutive in Erev.
      simpl in Erev.
      destruct (Hlast (rev y) x Erev) as [Hd Hu].
      simpl in Hin. unfold ch_dot, ch_underscore in *.
      destruct Hin as [H|[H|[]]]; congruence.
Qed.

(** ** The path of an uploaded object *)

(** X1.  Whatever the name of the uploaded file, the object is stored at
    [<job-id>/<name>] with exactly one slash: neither part contains a
    slash or a backslash, [<name>] is made of characters of
    [[A-Za-z0-9_.-]] only and neither begins nor ends with a dot or an
    underscore (so it is never [.] or [..]). *)
Theorem upload_path_shape (U : Unicode) (env : Env) (req : Request)
    (f : FileStorage) :
  given_file (files_file req) = Some f ->
  exists tid name,
    uploaded_object_path U env req f = tid ++ ch_slash :: name /\
    tid = transcription_id U env (form_url req) (files_file req) /\
    name = secure_filename U (filename f) /\
    no_path_separator tid /\
    no_path_separator name /\
    Forall (fun c => is_safe c = true) name /\
    (forall c t, name = c :: t -> c <> ch_dot /\ c <> ch_underscore) /\
    (forall t c, name = t ++ [c] -> c <> ch_dot /\ c <> ch_underscore) /\
    name <> lit "." /\ name <> lit "..".
Proof.
  intros Hf.
  exists (transcription_id U env (form_url req) (files_file req)),
    (secure_filename U (filename f)).
  assert (Hsafe := secure_filename_safe U (filename f)).
  destruct (secure_filename_ends U (filename f)) as [Hhead Hlast].
  split; [reflexivity|]. split; [reflexivity|]. split; [reflexivity|].
  split.
  { unfold transcription_id, source_base_name. rewrite Hf.
    unfold no_path_separator.
    apply Forall_app; split; [|apply Forall_app; split].
    - eapply Forall_impl; [apply is_safe_no_separator|].
      eapply extension_stripped_Forall; [apply rsplit1_head|]. exact Hsafe.
    - repeat constructor; unfold ch_slash, ch_backslash; simpl; lia.
    - apply strftime_no_separator. }
  split; [eapply Forall_impl; [apply is_safe_no_separator | exact Hsafe]|].
  split; [exact Hsafe|].
  split; [exact Hhead|].
  split; [exact Hlast|].
  split; intros H; destruct (Hhead _ _ H) as [Hd _]; apply Hd; reflexivity.
Qed.

(** ** The allow-list *)

Lemma contains_true (c : char) (s : str) : contains c s = true <-> In c s.
Proof.
  destruct (contains c s) eqn:E.
  - split; auto. intros _.
    unfold contains in E. apply existsb_exists in E.
    destruct E as [x [Hin Hx]]. apply N.eqb_eq in Hx. subst. exact Hin.
  - apply contains_false in E. split; [discriminate | contradiction].
Qed.

Lemma rsplit_last_app (sep : char) (stem ext : str) :
  contains sep ext = false ->
  rsplit_last sep (stem ++ sep :: ext) = Some (stem, ext).
Proof.
  intros Hext.
  assert (Hnone : rsplit_last sep ext = None).
  { destruct (rsplit_last sep ext) as [[a b]|] eqn:E; auto.
    apply rsplit_last_some in E. destruct E as [-> _].
    apply contains_false in Hext. exfalso. apply Hext.
    apply in_or_app. right. left. reflexivity. }
  induction stem as [|c t IH]; simpl.
  - rewrite Hnone, N.eqb_refl. reflexivity.
  - rewrite IH. reflexivity.
Qed.

(** X2.  [allowed_file] accepts a name exactly when it has a dot and the
    text after its last dot, lower-cased, is one of the eight allowed
    extensions; nothing before the last dot matters. *)
Theorem allowed_file_extension (U : Unicode) (name : str) :
  allowed_file U name = true <->
  exists stem ext,
    name = stem ++ ch_dot :: ext /\
    contains ch_dot ext = false /\
    In (str_lower U ext) ALLOWED_EXTENSIONS.
Proof.
  unfold allowed_file, rsplit1. split.
  - intros H. apply andb_true_iff in H. destruct H as [_ H].
    destruct (rsplit_last ch_dot name) as [[a b]|] eqn:E;
      cbn [nth_error] in H; try discriminate.
    apply rsplit_last_some in E. destruct E as [-> Hb].
    exists a, b. repeat split; auto.
    apply existsb_exists in H. destruct H as [x [Hin Hx]].
    apply str_eqb_eq in Hx. rewrite Hx. exact Hin.
  - intros (stem & ext & -> & Hext & Hin).
    rewrite rsplit_last_app by exact Hext.
    apply andb_true_iff. split.
    + apply contains_true. apply in_or_app. right. left. reflexivity.
    + cbn [nth_error]. apply existsb_exists. exists (str_lower U ext).
      split; [exact Hin | apply str_eqb_refl].
Qed.

(** ** The identifier of a URL job *)

Lemma strftime_length (d : DateTime) : List.length (strftime d) = 15%nat.
Proof. reflexivity. Qed.

(** X3.  For a URL-only submission the job identifier is the base name,
    an underscore and the timestamp; it has at most 66 characters, all of
    them in [[A-Za-z0-9_.-]], hence no path separator. *)
Theorem url_job_identifier (U : Unicode) (env : Env)
    (url : option str) (file : option FileStorage) (u : str) :
  given_file file = None ->
  given_url url = Some u ->
  transcription_id U env url file
    = firstn 50 (re_sub_unsafe (re_sub_scheme u)) ++ lit "_" ++ strftime (now env) /\
  (List.length (transcription_id U env url file) <= 66)%nat /\
  Forall (fun c => is_safe c = true) (transcription_id U env url file) /\
  no_path_separator (transcription_id U env url file).
Proof.
  intros Hf Hu.
  assert (E : transcription_id U env url file
              = firstn 50 (re_sub_unsafe (re_sub_scheme u)) ++ lit "_"
                ++ strftime (now env)).
  { unfold transcription_id, source_base_name. rewrite Hf, Hu. reflexivity. }
  assert (Hsafe : Forall (fun c => is_safe c = true)
                    (transcription_id U env url file)).
  { rewrite E. apply Forall_app. split.
    - pose proof (re_sub_unsafe_safe (re_sub_scheme u)) as H.
      rewrite <- (firstn_skipn 50) in H. apply Forall_app in H. tauto.
    - apply Forall_app. split.
      + repeat constructor.
      + unfold strftime, pad4, pad2. simpl.
        assert (Hd : forall n, is_safe (digit n) = true).
        { intros n. unfold is_safe, is_alnum. rewrite digit_is_digit.
          reflexivity. }
        repeat (apply Forall_cons; [first [apply Hd | reflexivity]|]).
        apply Forall_nil. }
  split; [exact E|]. split.
  - rewrite E. rewrite !length_app, strftime_length.
    change (List.length (lit "_")) with 1%nat.
    pose proof (firstn_le_length 50 (re_sub_unsafe (re_sub_scheme u))) as Hl.
    revert Hl. generalize (List.length (firstn 50 (re_sub_unsafe (re_sub_scheme u)))).
    intros n Hl. lia.
  - split; [exact Hsafe|].
    eapply Forall_impl; [apply is_safe_no_separator | exact Hsafe].
Qed.

(** ** Every run of [transcribe] *)

Lemma start_worker_raises_trace (env : Env) (input tid : str) (b : Bucket) (e : Exn) :
  vm_step_raises env input tid e ->
  exists w, start_worker env input tid b = (Raise e, b, w)
            /\ worker_prefix env input tid w.
Proof.
  unfold worker_prefix, get_call, set_call, start_call.
  unfold start_worker, bind, instances_get, instances_setMetadata,
    instances_start, get_metadata, get_fingerprint, request.
  intros [Hg | Hg [[Hm ->] | [md [Hm [Hf ->]]]] | md fp Hg Hm Hf Hs
          | md fp Hg Hm Hf Hs Hst]; rewrite Hg.
  - eexists; split; [reflexivity | left; reflexivity].
  - rewrite Hm. eexists; split; [reflexivity | left; reflexivity].
  - rewrite Hm. unfold ret at 1. rewrite Hf.
    eexists; split; [reflexivity | left; reflexivity].
  - rewrite Hm. unfold ret at 1. rewrite Hf. unfold ret at 1. rewrite Hs.
    eexists; split; [reflexivity|].
    right. exists md, fp. repeat split; auto.
  - rewrite Hm. unfold ret at 1. rewrite Hf. unfold ret at 1. rewrite Hs, Hst.
    eexists; split; [reflexivity|].
    right. exists md, fp. repeat split; auto.
Qed.

Lemma transcribe_upload_raises (U : Unicode) (env : Env) (req : Request)
    (b : Bucket) (f : FileStorage) (e : Exn) :
  given_file (files_file req) = Some f ->
  allowed_file U (filename f) = true ->
  raises env (CallUpload (uploaded_object_path U env req f)
                (stream f) (content_type f)) = Some e ->
  transcribe U env req b
  = (Raise e, b,
     [CallUpload (uploaded_object_path U env req f) (stream f) (content_type f)]).
Proof.
  intros Hf Ha Hup.
  unfold transcribe, prepare_input. rewrite Hf, Ha, andb_false_r.
  cbv beta iota zeta. simpl negb.
  unfold uploaded_object_path in Hup.
  unfold bind at 1. unfold bind at 1.
  unfold upload_from_file, request. rewrite Hup. reflexivity.
Qed.

Lemma transcribe_run_spec (U : Unicode) (env : Env) (req : Request) (b : Bucket) :
  transcribe_run U env req b (transcribe U env req b).
Proof.
  assert (Hsubmitted : forall input, submitted U env req input ->
            transcribe_run U env req b (transcribe U env req b)).
  { intros input Hsub.
    destruct (start_worker_cases env input
                (transcription_id U env (form_url req) (files_file req))
                (fst (after_upload U env req b)))
      as [(md & fp & Hg & Hm & Hfp & Hs & Hst) | [e He]].
    - rewrite (transcribe_initiates U env req b input md fp); auto.
      eapply run_initiated; eauto.
    - rewrite (transcribe_submitted U env req b input Hsub). unfold try_except.
      destruct (start_worker_raises_trace env input _
                  (fst (after_upload U env req b)) e He) as [w [-> Hw]].
      unfold ret. rewrite app_nil_r.
      eapply run_failed; eauto. }
  destruct (given_file (files_file req)) as [f|] eqn:Hf.
  - destruct (allowed_file U (filename f)) eqn:Ha.
    + destruct (raises env (CallUpload (uploaded_object_path U env req f)
                              (stream f) (content_type f))) as [e|] eqn:Hup.
      * rewrite (transcribe_upload_raises U env req b f e); auto.
        apply run_upload_raised; auto.
      * eapply Hsubmitted. eapply submitted_file; eauto.
    + replace (transcribe U env req b)
        with (Return (text_response (lit "Invalid file type") 400), b,
              @nil Call).
      * apply run_rejected. reflexivity.
      * unfold transcribe, prepare_input. rewrite Hf, Ha, andb_false_r.
        reflexivity.
  - destruct (given_url (form_url req)) as [u|] eqn:Hu.
    + eapply Hsubmitted. apply submitted_url; eauto.
    + replace (transcribe U env req b)
        with (Return (text_response (lit "No URL or file provided") 400), b,
              @nil Call).
      * apply run_rejected. reflexivity.
      * unfold transcribe. rewrite Hf, Hu. reflexivity.
Qed.

(** X4.  Whatever the services do, the requests of one [transcribe] run
    are in this order and none is repeated: the upload (file jobs only),
    the metadata fetch, the metadata update, the start.  The update
    carries the fingerprint just fetched, and the start is sent only
    after the update was accepted. *)
Theorem transcribe_request_order (U : Unicode) (env : Env) (req : Request)
    (b : Bucket) :
  let t := snd (transcribe U env req b) in
  let tid := transcription_id U env (form_url req) (files_file req) in
  t = []
  \/ (exists f, given_file (files_file req) = Some f /\
                t = [CallUpload (uploaded_object_path U env req f)
                       (stream f) (content_type f)])
  \/ (exists input w,
        submitted U env req input /\
        worker_prefix env input tid w /\
        t = snd (after_upload U env req b) ++ w).
Proof.
  intros t tid. subst t tid.
  destruct (transcribe_run_spec U env req b)
    as [r Hr | f e Hf Ha Hup | input md fp Hsub Hg Hm Hfp Hs Hst
        | input e w Hsub He Hw]; simpl.
  - left; reflexivity.
  - right; left. exists f. auto.
  - right; right. exists input. eexists. split; [exact Hsub|].
    split; [|reflexivity].
    right. exists md, fp. repeat split; auto.
  - right; right. exists input, w. auto.
Qed.

(** X5.  A run of [transcribe] changes the bucket at most at the path of
    the uploaded object: a URL job leaves the bucket as it was, and a
    file job leaves every other object as it was. *)
Theorem transcribe_bucket_footprint (U : Unicode) (env : Env) (req : Request)
    (b : Bucket) :
  let b' := snd (fst (transcribe U env req b)) in
  (given_file (files_file req) = None -> b' = b) /\
  (forall f q,
      given_file (files_file req) = Some f ->
      q <> uploaded_object_path U env req f ->
      bucket_get q b' = bucket_get q b) /\
  (b' = b \/
   exists f, given_file (files_file req) = Some f /\
             b' = bucket_put (uploaded_object_path U env req f) (stored_blob f) b).
Proof.
  intros b'. subst b'.
  assert (Hafter : forall f, given_file (files_file req) = Some f ->
            fst (after_upload U env req b)
            = bucket_put (uploaded_object_path U env req f) (stored_blob f) b).
  { intros f Hf. unfold after_upload. rewrite Hf. reflexivity. }
  assert (Hnone : given_file (files_file req) = None ->
                  fst (after_upload U env req b) = b).
  { intros Hf. unfold after_upload. rewrite Hf. reflexivity. }
  destruct (transcribe_run_spec U env req b)
    as [r Hr | f e Hf Ha Hup | input md fp Hsub Hg Hm Hfp Hs Hst
        | input e w Hsub He Hw]; simpl.
  - auto.
  - auto.
  - split; [exact Hnone|]. split.
    + intros f q Hf Hq. rewrite (Hafter f Hf).
      apply bucket_get_put_other. exact Hq.
    + destruct (given_file (files_file req)) as [f|] eqn:Hf.
      * right. exists f. split; auto.
      * left. auto.
  - split; [exact Hnone|]. split.
    + intros f q Hf Hq. rewrite (Hafter f Hf).
      apply bucket_get_put_other. exact Hq.
    + destruct (given_file (files_file req)) as [f|] eqn:Hf.
      * right. exists f. split; auto.
      * left. auto.
Qed.


(** ** The folder of a file job *)

Lemma file_job_id_no_separator (U : Unicode) (env : Env)
    (url : option str) (file : option FileStorage) (f : FileStorage) :
  given_file file = Some f ->
  no_path_separator (transcription_id U env url file).
Proof.
  intros Hf. unfold transcription_id, source_base_name. rewrite Hf.
  unfold no_path_separator.
  apply Forall_app; split; [|apply Forall_app; split].
  - eapply Forall_impl; [apply is_safe_no_separator|].
    eapply extension_stripped_Forall; [apply rsplit1_head|].
    apply secure_filename_safe.
  - repeat constructor; unfold ch_slash, ch_backslash; simpl; lia.
  - apply strftime_no_separator.
Qed.

Lemma bucket_put_In (path : str) (o : Blob) (b : Bucket) :
  In (path, o) (bucket_put path o b).
Proof.
  induction b as [|[n x] rest IH]; simpl.
  - left; reflexivity.
  - destruct (str_compare path n); simpl; auto.
Qed.

(** X7.  Once the upload of a file job is stored, the object lies in the
    first-level folder named by the job identifier, and the delimiter
    listing of the bucket reports that folder. *)
Theorem file_job_folder (U : Unicode) (env : Env) (req : Request)
    (b : Bucket) (f : FileStorage) :
  given_file (files_file req) = Some f ->
  allowed_file U (filename f) = true ->
  raises env (CallUpload (uploaded_object_path U env req f)
                (stream f) (content_type f)) = None ->
  let tid := transcription_id U env (form_url req) (files_file req) in
  let b' := snd (fst (transcribe U env req b)) in
  first_level_prefix (uploaded_object_path U env req f) = Some (tid ++ [ch_slash]) /\
  bucket_get (uploaded_object_path U env req f) b' = Some (stored_blob f) /\
  In (tid ++ [ch_slash]) (bucket_prefixes b') /\
  drop_last (tid ++ [ch_slash]) = tid.
Proof.
  intros Hf Ha Hup tid b'.
  assert (Hpre : first_level_prefix (uploaded_object_path U env req f)
                 = Some (tid ++ [ch_slash])).
  { unfold uploaded_object_path. fold tid.
    change (lit "/" ++ secure_filename U (filename f))
      with (ch_slash :: secure_filename U (filename f)).
    apply first_level_prefix_app. apply contains_false.
    pose proof (file_job_id_no_separator U env (form_url req) (files_file req)
                  f Hf) as Hsep.
    fold tid in Hsep. unfold no_path_separator in Hsep.
    rewrite Forall_forall in Hsep. intros Hin.
    destruct (Hsep _ Hin) as [Hne _]. apply Hne; reflexivity. }
  assert (Hb' : b' = bucket_put (uploaded_object_path U env req f)
                       (stored_blob f) b).
  { subst b'.
    assert (Hsub : submitted U env req (uploaded_object_uri U env req f))
      by (eapply submitted_file; eauto).
    assert (Hafter : fst (after_upload U env req b)
                     = bucket_put (uploaded_object_path U env req f)
                         (stored_blob f) b)
      by (unfold after_upload; rewrite Hf; reflexivity).
    destruct (start_worker_cases env (uploaded_object_uri U env req f) tid
                (fst (after_upload U env req b)))
      as [(md & fp & Hg & Hm & Hfp & Hs & Hst) | [e He]].
    - rewrite (transcribe_initiates U env req b _ md fp Hsub Hg Hm Hfp Hs Hst).
      exact Hafter.
    - destruct (transcribe_fails U env req b _ e Hsub He) as [t [E _]].
      rewrite E. exact Hafter. }
  split; [exact Hpre|]. split; [rewrite Hb'; apply bucket_get_put|].
  split.
  - unfold bucket_prefixes. rewrite bucket_prefixes_from_In. split; [tauto|].
    exists (uploaded_object_path U env req f), (stored_blob f). split; auto.
    rewrite Hb'. apply bucket_put_In.
  - unfold drop_last. apply removelast_last.
Qed.

(** ** Listing: failures *)



Lemma collect_transcriptions_raises (env : Env) (b : Bucket)
    (done : list str) (p : str) (rest : list str) (e : Exn) :
  Forall (fun q => raises env (CallListBlobs q) = None) done ->
  raises env (CallListBlobs p) = Some e ->
  forall acc,
    collect_transcriptions env (done ++ p :: rest) acc b
    = (Raise e, b, map CallListBlobs (done ++ [p])).
Proof.
  intros Hdone Hp. induction Hdone as [|q done Hq Hdone IH]; intros acc.
  - cbn [app collect_transcriptions]. unfold bind at 1.
    unfold list_blobs, request. rewrite Hp. reflexivity.
  - cbn [app collect_transcriptions]. unfold bind at 1.
    unfold list_blobs, request. rewrite Hq.
    destruct (find _ (bucket_under q b)) as [o|]; rewrite IH; reflexivity.
Qed.

(** X9.  The listing is all or nothing: as soon as one of its requests
    (the prefix listing, then one listing per folder in turn) raises,
    the answer is a 500 whose JSON [error] is the text of that
    exception, no further request is sent, and what was collected from
    the earlier folders is dropped. *)
Theorem list_transcriptions_failure (env : Env) (b : Bucket)
    (done : list Call) (c : Call) (rest : list Call) (e : Exn) :
  CallListPrefixes :: map CallListBlobs (bucket_prefixes b)
    = done ++ c :: rest ->
  Forall (fun d => raises env d = None) done ->
  raises env c = Some e ->
  list_transcriptions env b
  = (Return (json_response (JsonError (exn_str e)) 500), b, done ++ [c]).
Proof.
  intros Hseq Hdone Hc.
  unfold list_transcriptions, try_except, bind at 1, list_prefixes, request.
  destruct done as [|d done'].
  - simpl in Hseq. inversion Hseq; subst c. rewrite Hc. reflexivity.
  - simpl in Hseq. inversion Hseq as [[Hd Hmap]]. subst d.
    inversion Hdone as [|? ? Hd Hdone']; subst. rewrite Hd.
    apply map_eq_app in Hmap.
    destruct Hmap as (ps & qs & Hps & Hdone_eq & Hrest).
    destruct qs as [|p qs]; [discriminate|].
    simpl in Hrest. inversion Hrest; subst c. clear Hrest.
    subst done'.
    unfold bind. rewrite Hps.
    rewrite (collect_transcriptions_raises env b ps p qs e); auto.
    + simpl. rewrite app_nil_r, map_app. reflexivity.
    + rewrite Forall_map in Hdone'. exact Hdone'.
Qed.

(** ** Download: failures and headers *)


Lemma basename_spec (path : str) :
  contains ch_slash (basename path) = false /\
  (path = basename path \/
   exists dir, path = dir ++ ch_slash :: basename path).
Proof.
  unfold basename.
  destruct (rsplit_last ch_slash path) as [[a c]|] eqn:E.
  - apply rsplit_last_some in E. destruct E as [-> Hc].
    split; [exact Hc|]. right. exists a. reflexivity.
  - apply rsplit_last_none in E. split; [exact E | left; reflexivity].
Qed.

(** X11.  A 200 answer of [download_file] carries one header,
    [Content-Disposition: attachment], whose file name is the part of
    the path after its last slash: it contains no slash, whatever the
    path. *)
Theorem download_file_attachment (env : Env) (path : str) (b b' : Bucket)
    (r : Response) (t : list Call) :
  download_file env path b = (Return r, b', t) ->
  status r = 200 ->
  exists name,
    headers r = [ {| header_name := lit "Content-Disposition";
                     header_value := lit "attachment";
                     header_options := [(lit "filename", name)] |} ] /\
    contains ch_slash name = false /\
    (path = name \/ exists dir, path = dir ++ ch_slash :: name).
Proof.
  unfold download_file, try_except, bind, blob_exists, download_as_bytes,
    request, bucket_blob. simpl.
  destruct (raises env (CallExists path)) as [e|].
  { intros H; inversion H; subst; discriminate. }
  destruct (bucket_get path b) as [o|] eqn:E; simpl.
  2:{ intros H; inversion H; subst; discriminate. }
  destruct (raises env (CallDownload path)) as [e|].
  { intros H; inversion H; subst; discriminate. }
  rewrite E. simpl. intros H _. inversion H; subst. simpl.
  exists (basename path). split; [reflexivity|]. apply basename_spec.
Qed.

(** ** How the handlers compose *)

Lemma transcribe_stores_upload (U : Unicode) (env : Env) (req : Request)
    (b : Bucket) (f : FileStorage) :
  given_file (files_file req) = Some f ->
  allowed_file U (filename f) = true ->
  raises env (CallUpload (uploaded_object_path U env req f)
                (stream f) (content_type f)) = None ->
  snd (fst (transcribe U env req b))
  = bucket_put (uploaded_object_path U env req f) (stored_blob f) b.
Proof.
  intros Hf Ha Hup.
  assert (Hsub : submitted U env req (uploaded_object_uri U env req f))
    by (eapply submitted_file; eauto).
  assert (Hafter : fst (after_upload U env req b)
                   = bucket_put (uploaded_object_path U env req f)
                       (stored_blob f) b)
    by (unfold after_upload; rewrite Hf; reflexivity).
  destruct (start_worker_cases env (uploaded_object_uri U env req f)
              (transcription_id U env (form_url req) (files_file req))
              (fst (after_upload U env req b)))
    as [(md & fp & Hg & Hm & Hfp & Hs & Hst) | [e He]].
  - rewrite (transcribe_initiates U env req b _ md fp Hsub Hg Hm Hfp Hs Hst).
    exact Hafter.
  - destruct (transcribe_fails U env req b _ e Hsub He) as [t [E _]].
    rewrite E. exact Hafter.
Qed.

(** X12.  What a file job uploads, [download_file] gives back: once the
    upload is stored (whether or not the worker is then started), a
    download of the object's path answers 200 with exactly the uploaded
    bytes, under the content type of the uploaded part, or under
    [application/octet-stream] when the part had none or an empty one. *)
Theorem upload_then_download (U : Unicode) (env env2 : Env) (req : Request)
    (b : Bucket) (f : FileStorage) :
  given_file (files_file req) = Some f ->
  allowed_file U (filename f) = true ->
  let path := uploaded_object_path U env req f in
  raises env (CallUpload path (stream f) (content_type f)) = None ->
  raises env2 (CallExists path) = None ->
  raises env2 (CallDownload path) = None ->
  let b' := snd (fst (transcribe U env req b)) in
  exists r,
    download_file env2 path b'
      = (Return r, b', [CallExists path; CallDownload path]) /\
    status r = 200 /\
    body r = Bytes (stream f) /\
    mimetype r = match nonempty (content_type f) with
                 | Some ctype => ctype
                 | None => lit "application/octet-stream"
                 end.
Proof.
  intros Hf Ha path Hup He Hd b'.
  assert (Hb' : b' = bucket_put path (stored_blob f) b)
    by (apply transcribe_stores_upload; auto).
  assert (Hget : bucket_get path b' = Some (stored_blob f))
    by (rewrite Hb'; apply bucket_get_put).
  unfold download_file, try_except, bind, blob_exists, download_as_bytes,
    request, bucket_blob. simpl.
  rewrite He, Hget. simpl. rewrite Hd, Hget. simpl.
  eexists. split; [reflexivity|]. simpl.
  repeat split.
  destruct (content_type f) as [[|c s]|]; reflexivity.
Qed.




(** ** Timestamps and time *)

Lemma digits_value_lt (l1 : list N) :
  forall l2 a1 a2,
    List.length l1 = List.length l2 ->
    Forall (fun d => d < 10) l1 -> Forall (fun d => d < 10) l2 ->
    a1 < a2 -> digits_value a1 l1 < digits_value a2 l2.
Proof.
  induction l1 as [|d1 t1 IH]; intros [|d2 t2] a1 a2 Hlen H1 H2 Ha;
    cbn [digits_value List.length] in *; try discriminate; auto.
  inversion H1; inversion H2; subst. injection Hlen as Hlen.
  apply IH; try assumption. lia.
Qed.

Lemma add_compare_l (p a b : N) : (p + a ?= p + b) = (a ?= b).
Proof.
  destruct (N.compare_spec a b) as [->|Hlt|Hgt].
  - apply N.compare_refl.
  - apply N.compare_lt_iff. lia.
  - apply N.compare_gt_iff. lia.
Qed.

Lemma digits_compare (l1 : list N) :
  forall l2 a,
    List.length l1 = List.length l2 ->
    Forall (fun d => d < 10) l1 -> Forall (fun d => d < 10) l2 ->
    str_compare (map (N.add 48) l1) (map (N.add 48) l2)
    = (digits_value a l1 ?= digits_value a l2).
Proof.
  induction l1 as [|d1 t1 IH]; intros [|d2 t2] a Hlen H1 H2;
    cbn [digits_value List.length map str_compare] in *; try discriminate.
  - symmetry. apply N.compare_refl.
  - inversion H1; inversion H2; subst. injection Hlen as Hlen.
    rewrite add_compare_l.
    destruct (N.compare_spec d1 d2) as [->|Hlt|Hgt].
    + apply IH; assumption.
    + symmetry. apply N.compare_lt_iff.
      apply digits_value_lt; try assumption. lia.
    + symmetry. apply N.compare_gt_iff.
      apply digits_value_lt; try assumption; [symmetry; assumption | lia].
Qed.

Lemma str_compare_app (a1 : str) :
  forall a2 x y,
    List.length a1 = List.length a2 ->
    str_compare (a1 ++ x) (a2 ++ y)
    = match str_compare a1 a2 with
      | Eq => str_compare x y
      | c => c
      end.
Proof.
  induction a1 as [|c1 t1 IH]; intros [|c2 t2] x y Hlen;
    simpl in *; try discriminate; auto.
  destruct (c1 ?= c2); auto.
Qed.

Lemma str_compare_refl (a : str) : str_compare a a = Eq.
Proof. apply str_compare_eq; reflexivity. Qed.

Lemma lex_compare (d1 t1 d2 t2 : N) :
  t1 < 1000000 -> t2 < 1000000 ->
  (d1 * 1000000 + t1 ?= d2 * 1000000 + t2)
  = match d1 ?= d2 with
    | Eq => t1 ?= t2
    | c => c
    end.
Proof.
  intros H1 H2.
  destruct (N.compare_spec d1 d2) as [->|Hlt|Hgt].
  - apply add_compare_l.
  - apply N.compare_lt_iff. lia.
  - apply N.compare_gt_iff. lia.
Qed.

(** The digits of a timestamp, before and after the hyphen. *)
Lemma strftime_digits (d : DateTime) :
  strftime d
  = map (N.add 48)
      [(year d / 1000) mod 10; (year d / 100) mod 10; (year d / 10) mod 10;
       year d mod 10; (month d / 10) mod 10; month d mod 10;
       (day d / 10) mod 10; day d mod 10]
    ++ ch_hyphen ::
    map (N.add 48)
      [(hour d / 10) mod 10; hour d mod 10; (minute d / 10) mod 10;
       minute d mod 10; (second d / 10) mod 10; second d mod 10].
Proof. reflexivity. Qed.

Lemma mod10_digit (n : N) : n mod 10 < 10.
Proof. apply N.mod_upper_bound. lia. Qed.

Lemma date_digits_value (d : DateTime) :
  valid_datetime d ->
  digits_value 0
    [(year d / 1000) mod 10; (year d / 100) mod 10; (year d / 10) mod 10;
     year d mod 10; (month d / 10) mod 10; month d mod 10;
     (day d / 10) mod 10; day d mod 10]
  = year d * 10000 + month d * 100 + day d.
Proof.
  intros Hv. destruct (strftime_decimal d Hv) as (Hy & Hm & Hd & _).
  cbv zeta beta in Hy, Hm, Hd. cbn [digits_value].
  revert Hy Hm Hd.
  generalize ((year d / 1000) mod 10) ((year d / 100) mod 10)
    ((year d / 10) mod 10) (year d mod 10) ((month d / 10) mod 10)
    (month d mod 10) ((day d / 10) mod 10) (day d mod 10).
  intros. lia.
Qed.

Lemma clock_digits_value (d : DateTime) :
  valid_datetime d ->
  digits_value 0
    [(hour d / 10) mod 10; hour d mod 10; (minute d / 10) mod 10;
     minute d mod 10; (second d / 10) mod 10; second d mod 10]
  = hour d * 10000 + minute d * 100 + second d.
Proof.
  intros Hv. destruct (strftime_decimal d Hv) as (_ & _ & _ & Hh & Hm & Hs).
  cbv zeta beta in Hh, Hm, Hs. cbn [digits_value].
  revert Hh Hm Hs.
  generalize ((hour d / 10) mod 10) (hour d mod 10) ((minute d / 10) mod 10)
    (minute d mod 10) ((second d / 10) mod 10) (second d mod 10).
  intros. lia.
Qed.

Lemma strftime_compare (d1 d2 : DateTime) :
  valid_datetime d1 -> valid_datetime d2 ->
  str_compare (strftime d1) (strftime d2) = (time_key d1 ?= time_key d2).
Proof.
  intros H1 H2.
  assert (Hdigits : forall l, Forall (fun n => n < 10) (map (fun n => n mod 10) l)).
  { intros l. apply Forall_forall. intros x Hx. apply in_map_iff in Hx.
    destruct Hx as [y [<- _]]. apply mod10_digit. }
  rewrite !strftime_digits.
  rewrite str_compare_app by reflexivity.
  rewrite (digits_compare _ _ 0); try reflexivity;
    try (repeat (apply Forall_cons; [apply mod10_digit|]); apply Forall_nil).
  rewrite !date_digits_value by assumption.
  cbn [str_compare]. rewrite N.compare_refl.
  rewrite (digits_compare _ _ 0); try reflexivity;
    try (repeat (apply Forall_cons; [apply mod10_digit|]); apply Forall_nil).
  rewrite !clock_digits_value by assumption.
  destruct H1 as (Hy1 & Hm1 & Hd1 & Hh1 & Hmi1 & Hs1).
  destruct H2 as (Hy2 & Hm2 & Hd2 & Hh2 & Hmi2 & Hs2).
  rewrite <- (lex_compare (year d1 * 10000 + month d1 * 100 + day d1)
                (hour d1 * 10000 + minute d1 * 100 + second d1)
                (year d2 * 10000 + month d2 * 100 + day d2)
                (hour d2 * 10000 + minute d2 * 100 + second d2))
    by lia.
  unfold time_key. f_equal; lia.
Qed.

Lemma time_key_injective (d1 d2 : DateTime) :
  valid_datetime d1 -> valid_datetime d2 ->
  time_key d1 = time_key d2 -> d1 = d2.
Proof.
  intros (Hy1 & Hm1 & Hd1 & Hh1 & Hmi1 & Hs1)
         (Hy2 & Hm2 & Hd2 & Hh2 & Hmi2 & Hs2).
  unfold time_key. destruct d1, d2; simpl in *. intros H.
  assert (year0 = year1 /\ month0 = month1 /\ day0 = day1 /\
          hour0 = hour1 /\ minute0 = minute1 /\ second0 = second1) by lia.
  intuition congruence.
Qed.

(** X14.  Two submissions of the same source get the same job
    identifier only when the clock shows the same second: on valid
    dates the timestamp determines the time. *)
Theorem job_identifier_collision (U : Unicode) (env1 env2 : Env)
    (url : option str) (file : option FileStorage) :
  valid_datetime (now env1) -> valid_datetime (now env2) ->
  transcription_id U env1 url file = transcription_id U env2 url file ->
  now env1 = now env2.
Proof.
  intros H1 H2 Hid. unfold transcription_id in Hid.
  apply app_inv_head in Hid. apply app_inv_head in Hid.
  apply time_key_injective; auto.
  apply N.compare_eq_iff. rewrite <- strftime_compare by assumption.
  apply str_compare_eq. exact Hid.
Qed.

(** X15.  For one source, job identifiers compare as strings the way
    their submission times compare: the timestamp has fixed-width
    fields from the year down to the second.  Sorting such names in
    descending order puts the latest job first. *)
Theorem job_identifier_order (U : Unicode) (env1 env2 : Env)
    (url : option str) (file : option FileStorage) :
  valid_datetime (now env1) -> valid_datetime (now env2) ->
  str_compare (transcription_id U env1 url file)
              (transcription_id U env2 url file)
  = (time_key (now env1) ?= time_key (now env2)).
Proof.
  intros H1 H2. unfold transcription_id.
  rewrite str_compare_app by reflexivity.
  rewrite str_compare_refl.
  rewrite str_compare_app by reflexivity.
  rewrite str_compare_refl.
  apply strftime_compare; assumption.
Qed.

(** ** Ordinary URLs *)

Lemma re_sub_scheme_free (s : str) :
  scheme_free s -> re_sub_scheme_from 0 s = s.
Proof.
  induction s as [|c t IH]; intros Hfree; [reflexivity|].
  cbn [re_sub_scheme_from].
  rewrite (Hfree 0%nat : scheme_match (c :: t) = None).
  f_equal. apply IH. intros i. exact (Hfree (S i)).
Qed.

(** X16.  For a URL that is [http://] or [https://] followed by text in
    which neither occurs again, the first substitution returns exactly
    that text; a URL in which neither occurs at all (another scheme, or
    none) is returned unchanged. *)
Theorem re_sub_scheme_ordinary (rest : str) :
  scheme_free rest ->
  re_sub_scheme (lit "http://" ++ rest) = rest /\
  re_sub_scheme (lit "https://" ++ rest) = rest /\
  re_sub_scheme rest = rest.
Proof.
  intros Hfree. unfold re_sub_scheme.
  assert (H1 : scheme_match (lit "http://" ++ rest) = Some 7%nat).
  { unfold scheme_match. rewrite startswith_app. reflexivity. }
  assert (H2 : scheme_match (lit "https://" ++ rest) = Some 8%nat).
  { unfold scheme_match. rewrite (startswith_app (lit "https://")).
    reflexivity. }
  split; [|split].
  - change (lit "http://" ++ rest)
      with (104 :: (lit "ttp://" ++ rest)) in *.
    cbn [re_sub_scheme_from]. rewrite H1.
    rewrite re_sub_scheme_from_skip.
    change (skipn (Nat.pred 7) (lit "ttp://" ++ rest)) with rest.
    apply re_sub_scheme_free, Hfree.
  - change (lit "https://" ++ rest)
      with (104 :: (lit "ttps://" ++ rest)) in *.
    cbn [re_sub_scheme_from]. rewrite H2.
    rewrite re_sub_scheme_from_skip.
    change (skipn (Nat.pred 8) (lit "ttps://" ++ rest)) with rest.
    apply re_sub_scheme_free, Hfree.
  - apply re_sub_scheme_free, Hfree.
Qed.

(** ** What the worker is told *)

(** X17.  When [transcribe] answers 200, the one metadata update it sent
    carried the fingerprint the fetch returned and exactly four items:
    the input source, the output bucket (the bucket of the uploads), the
    token of the configuration, and the job identifier, which is also
    the identifier named in the confirmation text. *)
Theorem job_parameters (U : Unicode) (env : Env) (req : Request)
    (b b' : Bucket) (r : Response) (t : list Call) :
  transcribe U env req b = (Return r, b', t) ->
  status r = 200 ->
  let tid := transcription_id U env (form_url req) (files_file req) in
  exists md fp items,
    metadata (instance_info env) = Some md /\ fingerprint md = Some fp /\
    In (CallSetMetadata (GCP_PROJECT_ID env) GCE_ZONE GCE_INSTANCE_NAME fp items) t /\
    map fst items = [lit "gcs-input-path"; lit "gcs-output-bucket";
                     lit "huggingface-token"; lit "transcription-id"] /\
    item_value (lit "gcs-output-bucket") items = Some (Some GCS_BUCKET_NAME) /\
    item_value (lit "huggingface-token") items = Some (HUGGING_FACE_TOKEN env) /\
    item_value (lit "transcription-id") items = Some (Some tid) /\
    body r = Text (lit "Transcription job '" ++ tid ++
                   lit "' initiated. The VM is spinning up.").
Proof.
  intros Hrun Hst tid.
  destruct (transcribe_run_spec U env req b)
    as [r0 Hr | f e Hf Ha Hup | input md fp Hsub Hg Hm Hfp Hs Hstart
        | input e w Hsub He Hw].
  - inversion Hrun; subst. rewrite Hr in Hst. discriminate.
  - discriminate.
  - inversion Hrun; subst r b' t. clear Hrun.
    exists md, fp, (metadata_body env input tid).
    repeat split; auto.
    apply in_or_app. right. right. left. reflexivity.
  - inversion Hrun; subst. discriminate.
Qed.


(** ** The cost of a listing *)


(** * The further properties at sample inputs *)

Lemma sample_now_valid : valid_datetime sample_now.
Proof. unfold valid_datetime, sample_now; simpl; lia. Qed.

Lemma secure_filename_idempotent_witness :
  (forall s, Forall (fun c => (c <? 128) = true) s ->
             normalize_NFKD ascii_unicode s = s) /\
  secure_filename ascii_unicode
    (secure_filename ascii_unicode (lit "My cool movie.MP4"))
  = secure_filename ascii_unicode (lit "My cool movie.MP4").
Proof.
  assert (H : forall s, Forall (fun c => (c <? 128) = true) s ->
                        normalize_NFKD ascii_unicode s = s)
    by (intros s _; reflexivity).
  split; [exact H|].
  exact (secure_filename_idempotent ascii_unicode (lit "My cool movie.MP4") H).
Defined.

Lemma url_job_identifier_witness :
  given_file (files_file url_request) = None /\
  given_url (form_url url_request) = Some sample_url /\
  transcription_id ascii_unicode sample_env (form_url url_request)
    (files_file url_request)
  = firstn 50 (re_sub_unsafe (re_sub_scheme sample_url)) ++ lit "_"
    ++ strftime (now sample_env) /\
  (List.length (transcription_id ascii_unicode sample_env (form_url url_request)
                  (files_file url_request)) <= 66)%nat /\
  Forall (fun c => is_safe c = true)
    (transcription_id ascii_unicode sample_env (form_url url_request)
       (files_file url_request)) /\
  no_path_separator
    (transcription_id ascii_unicode sample_env (form_url url_request)
       (files_file url_request)).
Proof.
  split; [reflexivity|]. split; [reflexivity|].
  apply (url_job_identifier ascii_unicode sample_env (form_url url_request)
           (files_file url_request) sample_url); reflexivity.
Defined.

Lemma file_job_folder_witness :
  let path := uploaded_object_path ascii_unicode sample_env file_request
                sample_upload in
  let tid := transcription_id ascii_unicode sample_env (form_url file_request)
               (files_file file_request) in
  let b' := snd (fst (transcribe ascii_unicode sample_env file_request
                        sample_bucket)) in
  given_file (files_file file_request) = Some sample_upload /\
  allowed_file ascii_unicode (filename sample_upload) = true /\
  raises sample_env (CallUpload path (stream sample_upload)
                       (content_type sample_upload)) = None /\
  first_level_prefix path = Some (tid ++ [ch_slash]) /\
  bucket_get path b' = Some (stored_blob sample_upload) /\
  In (tid ++ [ch_slash]) (bucket_prefixes b') /\
  drop_last (tid ++ [ch_slash]) = tid.
Proof.
  intros path tid b'.
  split; [reflexivity|]. split; [reflexivity|]. split; [reflexivity|].
  apply (file_job_folder ascii_unicode sample_env file_request sample_bucket
           sample_upload); reflexivity.
Defined.

Lemma list_transcriptions_failure_witness :
  let e := ApiError (lit "503 backend error") in
  let done := [CallListPrefixes; CallListBlobs (lit "a_20240101-000000/")] in
  let c := CallListBlobs (lit "b_20240102-000000/") in
  CallListPrefixes :: map CallListBlobs (bucket_prefixes sample_bucket)
    = done ++ c :: [] /\
  Forall (fun d => raises failing_listing_env d = None) done /\
  raises failing_listing_env c = Some e /\
  list_transcriptions failing_listing_env sample_bucket
  = (Return (json_response (JsonError (exn_str e)) 500), sample_bucket,
     done ++ [c]).
Proof.
  intros e done c.
  assert (Hseq : CallListPrefixes :: map CallListBlobs (bucket_prefixes sample_bucket)
                 = done ++ c :: []) by reflexivity.
  assert (Hdone : Forall (fun d => raises failing_listing_env d = None) done)
    by (repeat constructor).
  assert (Hc : raises failing_listing_env c = Some e) by reflexivity.
  split; [exact Hseq|]. split; [exact Hdone|]. split; [exact Hc|].
  exact (list_transcriptions_failure failing_listing_env sample_bucket
           done c [] e Hseq Hdone Hc).
Defined.

Lemma download_file_attachment_witness :
  let path := lit "b_20240102-000000/result.txt" in
  let r := {| status := 200;
              body := Bytes (blob_data sample_blob);
              mimetype := lit "text/plain";
              headers := [ {| header_name := lit "Content-Disposition";
                              header_value := lit "attachment";
                              header_options := [(lit "filename", lit "result.txt")] |} ] |} in
  let t := [CallExists path; CallDownload path] in
  download_file sample_env path sample_bucket = (Return r, sample_bucket, t) /\
  status r = 200 /\
  exists name,
    headers r = [ {| header_name := lit "Content-Disposition";
                     header_value := lit "attachment";
                     header_options := [(lit "filename", name)] |} ] /\
    contains ch_slash name = false /\
    (path = name \/ exists dir, path = dir ++ ch_slash :: name).
Proof.
  intros path r t.
  assert (Hrun : download_file sample_env path sample_bucket
                 = (Return r, sample_bucket, t)) by (vm_compute; reflexivity).
  assert (Hst : status r = 200) by reflexivity.
  split; [exact Hrun|]. split; [exact Hst|].
  exact (download_file_attachment sample_env path sample_bucket sample_bucket
           r t Hrun Hst).
Defined.

Lemma upload_then_download_witness :
  let path := uploaded_object_path ascii_unicode sample_env file_request
                sample_upload in
  let b' := snd (fst (transcribe ascii_unicode sample_env file_request
                        sample_bucket)) in
  given_file (files_file file_request) = Some sample_upload /\
  allowed_file ascii_unicode (filename sample_upload) = true /\
  raises sample_env (CallUpload path (stream sample_upload)
                       (content_type sample_upload)) = None /\
  raises failing_start_env (CallExists path) = None /\
  raises failing_start_env (CallDownload path) = None /\
  exists r,
    download_file failing_start_env path b'
      = (Return r, b', [CallExists path; CallDownload path]) /\
    status r = 200 /\
    body r = Bytes (stream sample_upload) /\
    mimetype r = match nonempty (content_type sample_upload) with
                 | Some ctype => ctype
                 | None => lit "application/octet-stream"
                 end.
Proof.
  intros path b'.
  split; [reflexivity|]. split; [reflexivity|]. split; [reflexivity|].
  split; [reflexivity|]. split; [reflexivity|].
  apply (upload_then_download ascii_unicode sample_env failing_start_env
           file_request sample_bucket sample_upload); reflexivity.
Defined.


Lemma job_identifier_collision_witness :
  valid_datetime (now sample_env) /\
  valid_datetime (now failing_start_env) /\
  transcription_id ascii_unicode sample_env (form_url url_request)
    (files_file url_request)
  = transcription_id ascii_unicode failing_start_env (form_url url_request)
      (files_file url_request) /\
  now sample_env = now failing_start_env.
Proof.
  split; [exact sample_now_valid|]. split; [exact sample_now_valid|].
  split; [reflexivity|].
  exact (job_identifier_collision ascii_unicode sample_env failing_start_env
           (form_url url_request) (files_file url_request)
           sample_now_valid sample_now_valid eq_refl).
Defined.

Lemma sample_later_valid : valid_datetime sample_later.
Proof. unfold valid_datetime, sample_later; simpl; lia. Qed.

Lemma job_identifier_order_witness :
  valid_datetime (now sample_env) /\
  valid_datetime (now later_env) /\
  str_compare
    (transcription_id ascii_unicode sample_env (form_url url_request)
       (files_file url_request))
    (transcription_id ascii_unicode later_env (form_url url_request)
       (files_file url_request))
  = (time_key (now sample_env) ?= time_key (now later_env)) /\
  (time_key (now sample_env) ?= time_key (now later_env)) = Lt.
Proof.
  split; [exact sample_now_valid|]. split; [exact sample_later_valid|].
  split; [|reflexivity].
  exact (job_identifier_order ascii_unicode sample_env later_env
           (form_url url_request) (files_file url_request)
           sample_now_valid sample_later_valid).
Defined.

Lemma upload_path_shape_witness :
  given_file (files_file file_request) = Some sample_upload /\
  exists tid name,
    uploaded_object_path ascii_unicode sample_env file_request sample_upload
      = tid ++ ch_slash :: name /\
    tid = transcription_id ascii_unicode sample_env (form_url file_request)
            (files_file file_request) /\
    name = secure_filename ascii_unicode (filename sample_upload) /\
    no_path_separator tid /\
    no_path_separator name /\
    Forall (fun c => is_safe c = true) name /\
    (forall c t, name = c :: t -> c <> ch_dot /\ c <> ch_underscore) /\
    (forall t c, name = t ++ [c] -> c <> ch_dot /\ c <> ch_underscore) /\
    name <> lit "." /\ name <> lit "..".
Proof.
  split; [reflexivity|].
  exact (upload_path_shape ascii_unicode sample_env file_request sample_upload
           eq_refl).
Defined.

Lemma re_sub_scheme_ordinary_witness :
  scheme_free (lit "a.b") /\
  re_sub_scheme (lit "http://" ++ lit "a.b") = lit "a.b" /\
  re_sub_scheme (lit "https://" ++ lit "a.b") = lit "a.b" /\
  re_sub_scheme (lit "a.b") = lit "a.b".
Proof.
  assert (H : scheme_free (lit "a.b")).
  { intros i. do 4 (destruct i as [|i]; [reflexivity|]).
    destruct i; reflexivity. }
  split; [exact H|].
  exact (re_sub_scheme_ordinary (lit "a.b") H).
Defined.

Lemma job_parameters_witness :
  let tid := transcription_id ascii_unicode sample_env (form_url url_request)
               (files_file url_request) in
  let r := initiated_response (lit "example.com_a-b_20260207-090530") in
  let t := [get_call sample_env;
            set_call sample_env (lit "fp0") sample_url
              (lit "example.com_a-b_20260207-090530");
            start_call sample_env] in
  transcribe ascii_unicode sample_env url_request sample_bucket
    = (Return r, sample_bucket, t) /\
  status r = 200 /\
  exists md fp items,
    metadata (instance_info sample_env) = Some md /\ fingerprint md = Some fp /\
    In (CallSetMetadata (GCP_PROJECT_ID sample_env) GCE_ZONE GCE_INSTANCE_NAME
          fp items) t /\
    map fst items = [lit "gcs-input-path"; lit "gcs-output-bucket";
                     lit "huggingface-token"; lit "transcription-id"] /\
    item_value (lit "gcs-output-bucket") items = Some (Some GCS_BUCKET_NAME) /\
    item_value (lit "huggingface-token") items
      = Some (HUGGING_FACE_TOKEN sample_env) /\
    item_value (lit "transcription-id") items = Some (Some tid) /\
    body r = Text (lit "Transcription job '" ++ tid ++
                   lit "' initiated. The VM is spinning up.").
Proof.
  intros tid r t.
  assert (Hrun : transcribe ascii_unicode sample_env url_request sample_bucket
                 = (Return r, sample_bucket, t)) by (vm_compute; reflexivity).
  assert (Hst : status r = 200) by reflexivity.
  split; [exact Hrun|]. split; [exact Hst|].
  exact (job_parameters ascii_unicode sample_env url_request sample_bucket
           sample_bucket r t Hrun Hst).
Defined.

